(** * next-env-safe: the environment builder [createEnv] and its access guard

    A shallow embedding of the TypeScript sources of next-env-safe
    (the [createEnv] module, [errors.ts] and [types.ts]).

    Modelling conventions.
    - JavaScript objects live in a heap of cells; an object reference is
      a location in that heap, so that aliasing ([client: clientData]) and
      [Object.freeze] can be observed.
    - The ambient test [typeof window === "undefined"] is an explicit
      boolean argument [isServer] of [createEnv].
    - Exceptions, heap allocation, [console.warn] and the invocation of a
      field validator are effects of a small state-and-error monad [M].
    - A record of properties is the list of its own enumerable string keyed
      properties, in the order [Object.keys] yields them.  The special
      property name [__proto__] is only modelled as a member of
      [Object.prototype]; configurations declaring it as an own key are
      outside the model (see [ordinary_keys]). *)

From Stdlib Require Import String Ascii List ZArith Bool Lia.
From stdpp Require Import base list strings.
Import ListNotations.

Local Open Scope string_scope.
Local Open Scope list_scope.

(** ** Characters that cannot be written inside a string literal *)

Definition dquote : string := String (ascii_of_nat 34) EmptyString.
Definition newline : string := String (ascii_of_nat 10) EmptyString.

(** [quoted s] is the text of [s] between two double quote characters, as
    the template literals of the error messages print a key. *)
Definition quoted (s : string) : string := dquote +:+ s +:+ dquote.

(** ** Values, property keys and errors *)

Abbreviation loc := nat.

Inductive value : Type :=
| VUndefined
| VString (s : string)
| VNumber (n : Z)
| VBoolean (b : bool)
| VNative (name : string)   (* a member inherited from Object.prototype *)
| VRef (l : loc).           (* a reference to a heap object *)

(** A property key handed to a proxy trap is a string or a symbol. *)
Inductive propkey : Type :=
| PString (s : string)
| PSymbol (description : string).

(** errors.ts: the two error classes.  [TypeError] is the host's, raised
    by a failed assignment in strict mode code (every module is strict);
    its message is the engine's own and is not modelled. *)
Inductive error : Type :=
| EnvValidationError (msg : string)
| EnvConfigError (msg : string)
| TypeError.

(** ** Objects and the heap *)

Record object : Type := mkObject {
  props : list (string * value);
  frozen : bool
}.

Abbreviation heap := (list object).

(** The own property names of [Object.prototype] (ECMAScript, Annex B
    included); every object literal inherits them. *)
Definition ObjectPrototype_names : list string :=
  [ "constructor"; "hasOwnProperty"; "isPrototypeOf"; "propertyIsEnumerable";
    "toLocaleString"; "toString"; "valueOf"; "__proto__";
    "__defineGetter__"; "__defineSetter__"; "__lookupGetter__";
    "__lookupSetter__" ].

Definition mem_string (k : string) (ks : list string) : bool :=
  existsb (String.eqb k) ks.

Section Records.
Context {A : Type}.

(** [o[k]] restricted to own properties. *)
Fixpoint own_get (ps : list (string * A)) (k : string) : option A :=
  match ps with
  | [] => None
  | (k', v) :: rest => if String.eqb k k' then Some v else own_get rest k
  end.

(** [o[k] = v] on an extensible, writable record: an existing key keeps
    its position and takes the new value, a new key is appended. *)
Fixpoint set_own (ps : list (string * A)) (k : string) (v : A)
  : list (string * A) :=
  match ps with
  | [] => [(k, v)]
  | (k', v') :: rest =>
      if String.eqb k k' then (k', v) :: rest
      else (k', v') :: set_own rest k v
  end.

(** [{ ...dst, ...src }]: every own property of [src] is copied in order. *)
Definition spread (dst src : list (string * A)) : list (string * A) :=
  fold_left (fun acc kv => set_own acc (fst kv) (snd kv)) src dst.

(** [delete o[k]] on a configurable record. *)
Definition remove_own (ps : list (string * A)) (k : string)
  : list (string * A) :=
  filter (fun kv => negb (String.eqb k (fst kv))) ps.

(** [Object.keys(o)]. *)
Definition keys_of (ps : list (string * A)) : list string := map fst ps.
End Records.

Definition heap_props (h : heap) (l : loc) : list (string * value) :=
  match h !! l with
  | Some o => props o
  | None => []
  end.

Definition heap_frozen (h : heap) (l : loc) : bool :=
  match h !! l with
  | Some o => frozen o
  | None => false
  end.

(** [Reflect.get(target, prop, receiver)] on an ordinary object whose
    prototype is [Object.prototype]: an own data property, else the
    inherited member, else [undefined]. *)
Definition obj_get (h : heap) (l : loc) (prop : propkey) : value :=
  match prop with
  | PString k =>
      match own_get (heap_props h l) k with
      | Some v => v
      | None => if mem_string k ObjectPrototype_names then VNative k
                else VUndefined
      end
  | PSymbol _ => VUndefined
  end.

(** The internal method [[Set]] of an ordinary object, as [Reflect.set]
    reports it: it fails on a frozen object and leaves the heap as it is. *)
Definition obj_set (h : heap) (l : loc) (k : string) (v : value)
  : bool * heap :=
  match h !! l with
  | Some o =>
      if frozen o then (false, h)
      else (true, <[l := mkObject (set_own (props o) k v) false]> h)
  | None => (false, h)
  end.

(** The internal method [[Delete]]: deleting an own property of a frozen
    object fails; deleting a property that is not there succeeds. *)
Definition obj_delete (h : heap) (l : loc) (k : string) : bool * heap :=
  match h !! l with
  | Some o =>
      match own_get (props o) k with
      | None => (true, h)
      | Some _ =>
          if frozen o then (false, h)
          else (true, <[l := mkObject (remove_own (props o) k) false]> h)
      end
  | None => (true, h)
  end.

(** ** Effects *)

Inductive event : Type :=
| EvParse (key : string) (input : option string)
    (* the validator of field [key] was run on [runtimeEnv[key]] *)
| EvWarn (missingServer missingClient : list string).
    (* console.warn("[next-env-safe] Missing keys", {...}) *)

Record world : Type := mkWorld {
  store : heap;
  trace : list event
}.

Inductive outcome (A : Type) : Type :=
| Return (a : A)
| Throw (e : error).
Arguments Return {A} a.
Arguments Throw {A} e.

Definition M (A : Type) : Type := world -> outcome A * world.

Definition ret {A} (a : A) : M A := fun w => (Return a, w).

Definition throw {A} (e : error) : M A := fun w => (Throw e, w).

Definition bind {A B} (m : M A) (f : A -> M B) : M B :=
  fun w =>
    match m w with
    | (Return a, w') => f a w'
    | (Throw e, w') => (Throw e, w')
    end.

Notation "'let!' x ':=' m 'in' k" := (bind m (fun x => k))
  (at level 10, x pattern, m at level 100, k at level 200).
Notation "'do!' m 'in' k" := (bind m (fun _ => k))
  (at level 10, m at level 100, k at level 200).

(** An object literal or a library-built object: a fresh cell. *)
Definition alloc (ps : list (string * value)) : M loc :=
  fun w => (Return (length (store w)),
            mkWorld (store w ++ [mkObject ps false]) (trace w)).

(** [Object.freeze(o)]. *)
Definition freeze (l : loc) : M unit :=
  fun w => (Return tt,
            mkWorld (alter (fun o => mkObject (props o) true) l (store w))
                    (trace w)).

Definition own_props (l : loc) : M (list (string * value)) :=
  fun w => (Return (heap_props (store w) l), w).

Definition emit (e : event) : M unit :=
  fun w => (Return tt, mkWorld (store w) (trace w ++ [e])).

(** [for (const x of xs) { body }] where the body may throw. *)
Fixpoint for_each {A} (xs : list A) (body : A -> M unit) : M unit :=
  match xs with
  | [] => ret tt
  | x :: rest => do! body x in for_each rest body
  end.

(** ** Schemas (types.ts) and the validation library

    A [ZodTypeAny] is embedded as its parse function on the value found in
    the runtime environment: a string or [undefined].  It answers with the
    validated value or with a non-empty list of issues, whose paths are
    relative to the field. *)

Record issue : Type := mkIssue {
  path : list string;
  message : string
}.

Inductive parsed : Type :=
| Valid (v : value)
| Invalid (i : issue) (more : list issue).

Definition Schema : Type := option string -> parsed.

(** The prototype of a schema group: an object literal inherits from
    [Object.prototype]; [Object.create(null)] inherits nothing. *)
Inductive prototype : Type :=
| ObjectPrototype
| NullPrototype.

(** [SchemaMap = Record<string, z.ZodTypeAny>]. *)
Record SchemaMap : Type := mkSchemaMap {
  entries : list (string * Schema);
  proto : prototype
}.

(** [Record<string, string | undefined>]. *)
Definition RuntimeEnv : Type := list (string * option string).

Record CreateEnvConfig : Type := mkConfig {
  server : SchemaMap;
  client : SchemaMap;
  runtimeEnv : RuntimeEnv;
  clientPrefix : option string;
  verbose : option bool
}.

(** [runtimeEnv[key]]: the string, or [undefined] for a key that is absent
    or bound to [undefined]. *)
Definition env_get (env : RuntimeEnv) (k : string) : option string :=
  match own_get env k with
  | Some v => v
  | None => None
  end.

(** [prop in o]: own properties and the prototype chain. *)
Definition has_property (o : SchemaMap) (k : string) : bool :=
  mem_string k (keys_of (entries o))
  || match proto o with
     | ObjectPrototype => mem_string k ObjectPrototype_names
     | NullPrototype => false
     end.

(** The library reports a failure as [{ success: false, error }] and a
    success as [{ success: true, data }]. *)
Inductive SafeParseResult : Type :=
| Success (data : loc)
| Failure (issues : list issue).

(** The issues a field adds to the report: its own, each path prefixed
    with the field name. *)
Definition field_issues (env : RuntimeEnv) (kv : string * Schema)
  : list issue :=
  match snd kv (env_get env (fst kv)) with
  | Valid _ => []
  | Invalid i more =>
      map (fun j => mkIssue (fst kv :: path j) (message j)) (i :: more)
  end.

Definition field_data (env : RuntimeEnv) (kv : string * Schema)
  : list (string * value) :=
  match snd kv (env_get env (fst kv)) with
  | Valid v => [(fst kv, v)]
  | Invalid _ _ => []
  end.

Definition field_event (env : RuntimeEnv) (kv : string * Schema) : event :=
  EvParse (fst kv) (env_get env (fst kv)).

(** Modelled from the spec: the external validation library's object schema
    ([z.object(shape).safeParse(data)]), which is not part of the
    repository.  It is a non-throwing operation that runs the validator of
    every declared key on the value the data holds for it, ignores the other
    keys of the data, and returns either a success with a fresh object
    binding the declared keys to their validated values, or a failure with
    the issues of all failing fields. *)
Definition safeParse (shape : list (string * Schema)) (env : RuntimeEnv)
  : M SafeParseResult :=
  do! for_each shape (fun kv => emit (field_event env kv)) in
  match flat_map (field_issues env) shape with
  | [] =>
      let! data := alloc (flat_map (field_data env) shape) in
      ret (Success data)
  | i :: more => ret (Failure (i :: more))
  end.

(** ** The createEnv module *)

Definition DEFAULT_PREFIX : string := "NEXT_PUBLIC_".

Definition isError (r : SafeParseResult) : bool :=
  match r with
  | Success _ => false
  | Failure _ => true
  end.

(** [shape[k] = v] for every entry of the map, then [z.object(shape)]: the
    shape is what the object schema validates. *)
Definition makeObjectSchema (map : SchemaMap) : list (string * Schema) :=
  spread [] (entries map).

(** [key.startsWith(prefix)].  Strings are sequences of characters on both
    sides; being a prefix does not depend on the encoding of well-formed
    text. *)
Definition prefixOk (key prefix : string) : bool := String.prefix prefix key.

(** [issues.map((i) => `${i.path.join(".")}: ${i.message}`).join("\n")]. *)
Definition render_issue (i : issue) : string :=
  String.concat "." (path i) +:+ ": " +:+ message i.

Definition render_issues (issues : list issue) : string :=
  String.concat newline (List.map render_issue issues).

Definition server_key_message (key clientPrefix : string) : string :=
  "Server key " +:+ quoted key +:+ " must NOT start with client prefix "
  +:+ quoted clientPrefix +:+ ".".

Definition client_key_message (key clientPrefix : string) : string :=
  "Client key " +:+ quoted key +:+ " must start with client prefix "
  +:+ quoted clientPrefix +:+ ".".

Definition server_env_message (issues : list issue) : string :=
  "Invalid SERVER env:" +:+ newline +:+ render_issues issues +:+ newline
  +:+ newline
  +:+ "Hint: Ensure required server variables exist in your runtime.".

Definition client_env_message (issues : list issue) (clientPrefix : string)
  : string :=
  "Invalid CLIENT env:" +:+ newline +:+ render_issues issues +:+ newline
  +:+ newline
  +:+ "Hint: All client variables must be prefixed with '" +:+ clientPrefix
  +:+ "'.".

Definition guard_message (prop : string) : string :=
  "Attempted to access server env key " +:+ quoted prop
  +:+ " from the client. Use env.client instead.".

(** The proxy returned by [createEnv]: its target and the variables its
    [get] trap closes over. *)
Record Guarded : Type := mkGuarded {
  target : loc;
  guard_isServer : bool;
  guard_server : SchemaMap
}.

Definition is_undefined (v : value) : bool :=
  match v with
  | VUndefined => true
  | _ => false
  end.

Definition truthy (b : option bool) : bool :=
  match b with
  | Some true => true
  | _ => false
  end.

Definition get_store : M heap := fun w => (Return (store w), w).

Definition typeof_string (prop : propkey) : bool :=
  match prop with
  | PString _ => true
  | PSymbol _ => false
  end.

(** [prop in server] for a property key. *)
Definition prop_in (prop : propkey) (o : SchemaMap) : bool :=
  match prop with
  | PString k => has_property o k
  | PSymbol _ => false
  end.

(** [String(prop)]. *)
Definition String_of (prop : propkey) : string :=
  match prop with
  | PString k => k
  | PSymbol d => "Symbol(" +:+ d +:+ ")"
  end.

(** The keys of [group] whose value in [target] is [undefined]
    ([Object.keys(group).filter((k) => target[k] === undefined)]). *)
Definition missing_keys (h : heap) (target : loc) (group : SchemaMap)
  : list string :=
  List.filter (fun k => is_undefined (obj_get h target (PString k)))
              (keys_of (entries group)).

Definition nonempty {A} (l : list A) : bool :=
  match l with
  | [] => false
  | _ :: _ => true
  end.

(** [createEnv], lines 30 to 134 of the module.  The two tests
    [isError(serverValues)] and [isError(clientValues)] are the two matches
    on the parse results, which also give the issues and the data their
    names. *)
Definition createEnv (isServer : bool) (config : CreateEnvConfig)
  : M Guarded :=
  let server := server config in
  let client := client config in
  let runtimeEnv := runtimeEnv config in
  let clientPrefix := default DEFAULT_PREFIX (clientPrefix config) in
  let verbose := verbose config in
  do! for_each (keys_of (entries server)) (fun key =>
        if prefixOk key clientPrefix
        then throw (EnvConfigError (server_key_message key clientPrefix))
        else ret tt) in
  do! for_each (keys_of (entries client)) (fun key =>
        if negb (prefixOk key clientPrefix)
        then throw (EnvConfigError (client_key_message key clientPrefix))
        else ret tt) in
  let serverSchema := makeObjectSchema server in
  let clientSchema := makeObjectSchema client in
  let! serverValues :=
    (if isServer then safeParse serverSchema runtimeEnv
     else let! data := alloc [] in ret (Success data)) in
  let! clientValues := safeParse clientSchema runtimeEnv in
  match serverValues with
  | Failure issues =>
      throw (EnvValidationError (server_env_message issues))
  | Success serverData =>
      match clientValues with
      | Failure issues =>
          throw (EnvValidationError (client_env_message issues clientPrefix))
      | Success clientData =>
          let! spreadServer :=
            (if isServer then ret serverData else alloc []) in
          let! serverProps := own_props spreadServer in
          let! clientProps := own_props clientData in
          let! target :=
            alloc (set_own (spread (spread [] serverProps) clientProps)
                           "client" (VRef clientData)) in
          do! (if truthy verbose && isServer then
                 let! h := get_store in
                 let missingServer := missing_keys h target server in
                 let missingClient := missing_keys h target client in
                 if nonempty missingServer || nonempty missingClient
                 then emit (EvWarn missingServer missingClient)
                 else ret tt
               else ret tt) in
          do! freeze target in
          ret (mkGuarded target isServer server)
      end
  end.

(** The [get] trap of the proxy (lines 118 to 127). *)
Definition guarded_get (g : Guarded) (prop : propkey) (h : heap)
  : outcome value :=
  if negb (guard_isServer g) && typeof_string prop
     && prop_in prop (guard_server g)
  then Throw (EnvConfigError (guard_message (String_of prop)))
  else Return (obj_get h (target g) prop).

(** The proxy declares no other trap: an assignment or a deletion through
    it reaches the target. *)
Definition guarded_set (g : Guarded) (k : string) (v : value) (h : heap)
  : bool * heap :=
  obj_set h (target g) k v.

Definition guarded_delete (g : Guarded) (k : string) (h : heap)
  : bool * heap :=
  obj_delete h (target g) k.

(** ** The second createEnv module

    The repository holds a second module with the same [createEnv]; it
    differs in its hints and in how it attaches [client]: the merged object
    is frozen without it, a frozen copy of the client data is made, and
    [client] is assigned through the proxy afterwards (lines 239 to 276 of
    the source text). *)

Module Variant.

Definition server_env_message (issues : list issue) : string :=
  "Invalid SERVER env:" +:+ newline +:+ render_issues issues +:+ newline
  +:+ newline
  +:+ "Hint: Ensure required server variables exist in your runtime (e.g., .env).".

Definition client_env_message (issues : list issue) : string :=
  "Invalid CLIENT env:" +:+ newline +:+ render_issues issues +:+ newline
  +:+ newline
  +:+ "Hint: NEXT_PUBLIC_* variables must be defined for the browser bundle.".

(** [(guarded as any).client = frozenClient] in strict mode code: the
    assignment goes through the proxy to its target and throws when the
    target refuses it. *)
Definition assign (g : Guarded) (k : string) (v : value) : M unit :=
  fun w =>
    match guarded_set g k v (store w) with
    | (true, h) => (Return tt, mkWorld h (trace w))
    | (false, _) => (Throw TypeError, w)
    end.

Definition createEnv (isServer : bool) (config : CreateEnvConfig)
  : M Guarded :=
  let server := server config in
  let client := client config in
  let runtimeEnv := runtimeEnv config in
  let clientPrefix := default DEFAULT_PREFIX (clientPrefix config) in
  let verbose := verbose config in
  do! for_each (keys_of (entries server)) (fun key =>
        if prefixOk key clientPrefix
        then throw (EnvConfigError (server_key_message key clientPrefix))
        else ret tt) in
  do! for_each (keys_of (entries client)) (fun key =>
        if negb (prefixOk key clientPrefix)
        then throw (EnvConfigError (client_key_message key clientPrefix))
        else ret tt) in
  let serverSchema := makeObjectSchema server in
  let clientSchema := makeObjectSchema client in
  let! serverValues :=
    (if isServer then safeParse serverSchema runtimeEnv
     else let! data := alloc [] in ret (Success data)) in
  let! clientValues := safeParse clientSchema runtimeEnv in
  match serverValues with
  | Failure issues =>
      throw (EnvValidationError (server_env_message issues))
  | Success serverData =>
      match clientValues with
      | Failure issues =>
          throw (EnvValidationError (client_env_message issues))
      | Success clientData =>
          let! spreadServer :=
            (if isServer then ret serverData else alloc []) in
          let! serverProps := own_props spreadServer in
          let! clientProps := own_props clientData in
          let! merged :=
            alloc (spread (spread [] serverProps) clientProps) in
          do! (if truthy verbose && isServer then
                 let! h := get_store in
                 let missingServer := missing_keys h merged server in
                 let missingClient := missing_keys h merged client in
                 if nonempty missingServer || nonempty missingClient
                 then emit (EvWarn missingServer missingClient)
                 else ret tt
               else ret tt) in
          do! freeze merged in
          let! frozenClient := alloc (spread [] clientProps) in
          do! freeze frozenClient in
          let guarded := mkGuarded merged isServer server in
          do! assign guarded "client" (VRef frozenClient) in
          ret guarded
      end
  end.

End Variant.

(** ** Vocabulary of the statements *)

Definition server_keys (config : CreateEnvConfig) : list string :=
  keys_of (entries (server config)).

Definition client_keys (config : CreateEnvConfig) : list string :=
  keys_of (entries (client config)).

(** The prefix in force: [clientPrefix = DEFAULT_PREFIX] in the
    destructuring of the configuration. *)
Definition prefix_of (config : CreateEnvConfig) : string :=
  default DEFAULT_PREFIX (clientPrefix config).

(** Both groups respect the Client Prefix. *)
Definition prefixes_ok (config : CreateEnvConfig) : Prop :=
  Forall (fun k => prefixOk k (prefix_of config) = false) (server_keys config)
  /\ Forall (fun k => prefixOk k (prefix_of config) = true) (client_keys config).

(** The own keys of a group as a JavaScript object has them: pairwise
    distinct, and none of them the special name [__proto__]. *)
Definition ordinary_keys (m : SchemaMap) : Prop :=
  NoDup (keys_of (entries m)) /\ ~ In "__proto__" (keys_of (entries m)).

(** All issues the object schema of a group reports on an environment. *)
Definition group_issues (env : RuntimeEnv) (m : SchemaMap) : list issue :=
  flat_map (field_issues env) (entries m).

(** The declared keys of a group with their validated values. *)
Definition group_data (env : RuntimeEnv) (m : SchemaMap)
  : list (string * value) :=
  flat_map (field_data env) (entries m).

(** The environment satisfies the schema of every field of the group. *)
Definition satisfies (env : RuntimeEnv) (m : SchemaMap) : Prop :=
  Forall (fun kv => exists v, snd kv (env_get env (fst kv)) = Valid v)
         (entries m).

(** The first key that breaks the prefix rule of its group, if any. *)
Definition bad_server_key (config : CreateEnvConfig) : option string :=
  find (fun k => prefixOk k (prefix_of config)) (server_keys config).

Definition bad_client_key (config : CreateEnvConfig) : option string :=
  find (fun k => negb (prefixOk k (prefix_of config))) (client_keys config).

(** What a successful call [createEnv isServer config] run in world [w]
    leaves behind: the proxy [g] and the world [w'], where the client data
    is the second cell allocated by the call and the target is frozen. *)
Definition built_from (isServer : bool) (config : CreateEnvConfig)
           (w : world) (g : Guarded) (w' : world) : Prop :=
  let env := runtimeEnv config in
  let cdata := flat_map (field_data env) (makeObjectSchema (client config)) in
  let sdata :=
    if isServer
    then flat_map (field_data env) (makeObjectSchema (server config))
    else [] in
  let cd := length (store w) + 1 in
  g = mkGuarded (target g) isServer (server config)
  /\ (exists cells, store w' = store w ++ cells)
  /\ cd < target g < length (store w')
  /\ heap_props (store w') cd = cdata
  /\ heap_frozen (store w') cd = false
  /\ heap_props (store w') (target g)
     = set_own (spread (spread [] sdata) cdata) "client" (VRef cd)
  /\ heap_frozen (store w') (target g) = true.

(** What a caller sees of a value: a primitive as it is, an object by its
    own properties and not by its identity. *)
Inductive view : Type :=
| ViewValue (v : value)
| ViewObject (ps : list (string * value)).

Definition view_of (h : heap) (v : value) : view :=
  match v with
  | VRef l => ViewObject (heap_props h l)
  | _ => ViewValue v
  end.

Definition observe (h : heap) (r : outcome value) : outcome view :=
  match r with
  | Return v => Return (view_of h v)
  | Throw e => Throw e
  end.

(** What [env.client] shows of the object held by the target of [g]. *)
Definition client_view (g : Guarded) (w : world) : view :=
  view_of (store w) (obj_get (store w) (target g) (PString "client")).

(** [needle] occurs in [text]. *)
Definition mentions (text needle : string) : bool :=
  match String.index 0 needle text with
  | Some _ => true
  | None => false
  end.

(** ** Sample schemas and configurations *)

(** [z.string()]: a string is accepted as it is, [undefined] is an issue. *)
Definition z_string : Schema := fun input =>
  match input with
  | Some s => Valid (VString s)
  | None => Invalid (mkIssue [] "Required") []
  end.

(** [z.string().optional()]. *)
Definition z_string_optional : Schema := fun input =>
  match input with
  | Some s => Valid (VString s)
  | None => Valid VUndefined
  end.

Definition literal (es : list (string * Schema)) : SchemaMap :=
  mkSchemaMap es ObjectPrototype.

Definition empty_world : world := mkWorld [] [].

Definition sample_config : CreateEnvConfig :=
  mkConfig (literal [("DATABASE_URL", z_string)])
           (literal [("NEXT_PUBLIC_API_URL", z_string)])
           [("DATABASE_URL", Some "postgres://db");
            ("NEXT_PUBLIC_API_URL", Some "https://api");
            ("HOME", Some "/root")]
           None None.

(** The same groups on an environment that lacks [DATABASE_URL]. *)
Definition config_without_database : CreateEnvConfig :=
  mkConfig (literal [("DATABASE_URL", z_string)])
           (literal [("NEXT_PUBLIC_API_URL", z_string)])
           [("NEXT_PUBLIC_API_URL", Some "https://api")]
           None None.

(** The same groups on an empty environment: both groups fail. *)
Definition config_on_empty_env : CreateEnvConfig :=
  mkConfig (literal [("DATABASE_URL", z_string)])
           (literal [("NEXT_PUBLIC_API_URL", z_string)])
           []
           None None.

(** A server key with the client prefix. *)
Definition config_public_server_key : CreateEnvConfig :=
  mkConfig (literal [("NEXT_PUBLIC_FOO", z_string)])
           (literal [])
           []
           None None.

(** The empty client prefix. *)
Definition config_empty_prefix : CreateEnvConfig :=
  mkConfig (literal [("DATABASE_URL", z_string)])
           (literal [("API_URL", z_string)])
           [("DATABASE_URL", Some "postgres://db"); ("API_URL", Some "https://api")]
           (Some EmptyString) None.

(** One key declared in both groups. *)
Definition config_shared_key : CreateEnvConfig :=
  mkConfig (literal [("SHARED", z_string)])
           (literal [("SHARED", z_string)])
           [("SHARED", Some "x")]
           None None.

(** A server key named [client], which the default prefix allows. *)
Definition config_server_key_client : CreateEnvConfig :=
  mkConfig (literal [("client", z_string)])
           (literal [("NEXT_PUBLIC_API_URL", z_string)])
           [("client", Some "secret"); ("NEXT_PUBLIC_API_URL", Some "https://api")]
           None None.

(** ** Vocabulary of the further properties *)

(** The configuration with its [verbose] field replaced. *)
Definition with_verbose (v : option bool) (config : CreateEnvConfig)
  : CreateEnvConfig :=
  mkConfig (server config) (client config) (runtimeEnv config)
           (clientPrefix config) v.

Definition is_warning (e : event) : bool :=
  match e with
  | EvWarn _ _ => true
  | EvParse _ _ => false
  end.

(** The validators run on a group, in the order of its keys. *)
Definition group_events (env : RuntimeEnv) (m : SchemaMap) : list event :=
  map (field_event env) (makeObjectSchema m).

(** The schema of [k] in the group accepts the environment with the value
    [undefined] (an optional variable that is not set). *)
Definition validates_to_undefined (env : RuntimeEnv) (m : SchemaMap)
           (k : string) : bool :=
  match own_get (entries m) k with
  | Some sch =>
      match sch (env_get env k) with
      | Valid v => is_undefined v
      | Invalid _ _ => false
      end
  | None => false
  end.

(** The keys of a group, other than [client], validated to [undefined]. *)
Definition undefined_keys (env : RuntimeEnv) (m : SchemaMap) : list string :=
  List.filter (fun k => validates_to_undefined env m k
                        && negb (String.eqb k "client"))
              (keys_of (entries m)).

(** An optional server variable that the environment does not set, with
    the diagnostics switched on. *)
Definition config_optional_unset : CreateEnvConfig :=
  mkConfig (literal [("DATABASE_URL", z_string);
                     ("SENTRY_DSN", z_string_optional)])
           (literal [("NEXT_PUBLIC_API_URL", z_string)])
           [("DATABASE_URL", Some "postgres://db");
            ("NEXT_PUBLIC_API_URL", Some "https://api")]
           None (Some true).

(** * Properties *)

(** ** Records *)

Section RecordFacts.
Context {A : Type}.
Implicit Types (ps qs : list (string * A)) (k : string) (v : A).

Lemma own_get_In ps k v :
  own_get ps k = Some v -> In (k, v) ps.
Proof.
  induction ps as [|[k' v'] ps IH]; simpl; [discriminate|].
  destruct (String.eqb_spec k k') as [->|Hne].
  - intros [= ->]. now left.
  - intros H. right. now apply IH.
Qed.

Lemma own_get_None ps k :
  own_get ps k = None <-> ~ In k (keys_of ps).
Proof.
  induction ps as [|[k' v'] ps IH]; simpl.
  - tauto.
  - destruct (String.eqb_spec k k') as [->|Hne].
    + split; [discriminate | intros H; exfalso; apply H; now left].
    + rewrite IH. split.
      * intros H [Heq|Hin]; [congruence | tauto].
      * intros H Hin. apply H. now right.
Qed.

Lemma own_get_NoDup ps k v :
  NoDup (keys_of ps) -> In (k, v) ps -> own_get ps k = Some v.
Proof.
  induction ps as [|[k' v'] ps IH]; simpl; [tauto|].
  intros Hnd [Heq|Hin].
  - injection Heq as -> ->. now rewrite String.eqb_refl.
  - apply NoDup_cons in Hnd as [Hnotin Hnd].
    destruct (String.eqb_spec k k') as [->|Hne].
    + exfalso. apply Hnotin. apply list_elem_of_In.
      change k' with (fst (k', v)). now apply in_map.
    + now apply IH.
Qed.

Lemma own_get_set_own ps k k' v :
  own_get (set_own ps k v) k' =
  if String.eqb k' k then Some v else own_get ps k'.
Proof.
  induction ps as [|[k0 v0] ps IH]; simpl.
  - reflexivity.
  - destruct (String.eqb_spec k k0) as [->|Hne]; simpl.
    + destruct (String.eqb_spec k' k0); reflexivity.
    + rewrite IH. destruct (String.eqb_spec k' k0) as [->|Hne'].
      * destruct (String.eqb_spec k0 k); [congruence | reflexivity].
      * reflexivity.
Qed.

Lemma keys_set_own ps k v k' :
  In k' (keys_of (set_own ps k v)) <-> In k' (keys_of ps) \/ k' = k.
Proof.
  induction ps as [|[k0 v0] ps IH]; simpl.
  - intuition congruence.
  - destruct (String.eqb_spec k k0) as [->|Hne]; simpl.
    + intuition congruence.
    + rewrite IH. tauto.
Qed.

Lemma own_get_spread qs : forall ps k,
  own_get (spread ps qs) k =
  match own_get (rev qs) k with
  | Some v => Some v
  | None => own_get ps k
  end.
Proof.
  unfold spread.
  induction qs as [|[k0 v0] qs IH]; intros ps k; simpl.
  - reflexivity.
  - rewrite IH, own_get_set_own.
    assert (Happ : forall l1 l2 : list (string * A),
               own_get (l1 ++ l2) k =
               match own_get l1 k with
               | Some v => Some v
               | None => own_get l2 k
               end).
    { induction l1 as [|[k1 v1] l1 IH1]; intros l2; simpl; [reflexivity|].
      destruct (String.eqb k k1); [reflexivity | apply IH1]. }
    rewrite Happ. simpl.
    destruct (own_get (rev qs) k); [reflexivity|].
    destruct (String.eqb k k0); reflexivity.
Qed.

Lemma keys_spread qs : forall ps k,
  In k (keys_of (spread ps qs)) <-> In k (keys_of ps) \/ In k (keys_of qs).
Proof.
  unfold spread.
  induction qs as [|[k0 v0] qs IH]; intros ps k; simpl.
  - tauto.
  - rewrite IH, keys_set_own. intuition congruence.
Qed.

Lemma set_own_fresh ps k v :
  ~ In k (keys_of ps) -> set_own ps k v = ps ++ [(k, v)].
Proof.
  induction ps as [|[k0 v0] ps IH]; simpl; [reflexivity|].
  intros Hnotin.
  destruct (String.eqb_spec k k0) as [->|Hne]; [tauto|].
  rewrite IH; [reflexivity | tauto].
Qed.

Lemma spread_NoDup qs : forall ps,
  NoDup (keys_of (ps ++ qs)) -> spread ps qs = ps ++ qs.
Proof.
  unfold spread.
  induction qs as [|[k0 v0] qs IH]; intros ps Hnd; simpl.
  - now rewrite app_nil_r.
  - assert (Hnd' : NoDup (keys_of ((ps ++ [(k0, v0)]) ++ qs)))
      by now rewrite <- app_assoc.
    rewrite set_own_fresh.
    + rewrite IH by exact Hnd'. now rewrite <- app_assoc.
    + unfold keys_of in *. rewrite map_app in Hnd. simpl in Hnd.
      apply NoDup_app in Hnd as (_ & Hdisj & _).
      intros Hin. apply (Hdisj k0); [now apply list_elem_of_In|].
      apply list_elem_of_In. now left.
Qed.

(** With distinct keys, copying a record entry by entry gives it back. *)
Lemma spread_nil_NoDup qs :
  NoDup (keys_of qs) -> spread [] qs = qs.
Proof. intros Hnd. now apply (spread_NoDup qs []). Qed.
End RecordFacts.

(** ** The heap *)

Lemma heap_props_old (h t : heap) (l : loc) :
  l < length h -> heap_props (h ++ t) l = heap_props h l.
Proof. intros Hlt. unfold heap_props. now rewrite lookup_app_l. Qed.

Lemma heap_props_new (h t : heap) (i : nat) :
  heap_props (h ++ t) (length h + i) = heap_props t i.
Proof.
  unfold heap_props. rewrite lookup_app_r by lia.
  now replace (length h + i - length h) with i by lia.
Qed.

Lemma heap_props_first (h t : heap) :
  heap_props (h ++ t) (length h) = heap_props t 0.
Proof. rewrite <- (heap_props_new h t 0). f_equal. lia. Qed.

Lemma heap_frozen_new (h t : heap) (i : nat) :
  heap_frozen (h ++ t) (length h + i) = heap_frozen t i.
Proof.
  unfold heap_frozen. rewrite lookup_app_r by lia.
  now replace (length h + i - length h) with i by lia.
Qed.

(** A frozen object refuses every assignment and every deletion of an own
    property, and the heap stays as it was. *)
Lemma obj_set_frozen (h : heap) (l : loc) (k : string) (v : value) :
  heap_frozen h l = true -> obj_set h l k v = (false, h).
Proof.
  unfold heap_frozen, obj_set. destruct (h !! l) as [o|]; [|discriminate].
  now intros ->.
Qed.

Lemma obj_delete_frozen (h : heap) (l : loc) (k : string) :
  heap_frozen h l = true -> snd (obj_delete h l k) = h.
Proof.
  unfold heap_frozen, obj_delete. destruct (h !! l) as [o|]; [|discriminate].
  intros ->. now destruct (own_get (props o) k).
Qed.

(** ** Running the effects *)

Lemma for_each_emit {A} (f : A -> event) (xs : list A) (w : world) :
  for_each xs (fun x => emit (f x)) w
  = (Return tt, mkWorld (store w) (trace w ++ map f xs)).
Proof.
  revert w. induction xs as [|x xs IH]; intros w; simpl.
  - rewrite app_nil_r. now destruct w.
  - unfold bind, emit at 1. rewrite IH. simpl.
    now rewrite <- app_assoc.
Qed.

(** A loop whose body throws on the elements satisfying [p] stops at the
    first of them and has no effect on the world. *)
Lemma for_each_guard {A} (p : A -> bool) (e : A -> error) (xs : list A)
      (w : world) :
  for_each xs (fun x => if p x then throw (e x) else ret tt) w
  = match find p xs with
    | Some x => (Throw (e x), w)
    | None => (Return tt, w)
    end.
Proof.
  induction xs as [|x xs IH]; simpl; [reflexivity|].
  unfold bind. destruct (p x); simpl; [reflexivity | exact IH].
Qed.

Lemma safeParse_run (shape : list (string * Schema)) (env : RuntimeEnv)
      (w : world) :
  safeParse shape env w
  = match flat_map (field_issues env) shape with
    | [] =>
        (Return (Success (length (store w))),
         mkWorld (store w ++ [mkObject (flat_map (field_data env) shape) false])
                 (trace w ++ map (field_event env) shape))
    | i :: more =>
        (Return (Failure (i :: more)),
         mkWorld (store w) (trace w ++ map (field_event env) shape))
    end.
Proof.
  unfold safeParse, bind. rewrite for_each_emit.
  destruct (flat_map (field_issues env) shape); reflexivity.
Qed.

Lemma createEnv_bad_server_key isServer config w k :
  bad_server_key config = Some k ->
  createEnv isServer config w
  = (Throw (EnvConfigError (server_key_message k (prefix_of config))), w).
Proof.
  intros Hbad. unfold createEnv, bind at 1.
  rewrite (for_each_guard
             (fun key => prefixOk key (prefix_of config))
             (fun key => EnvConfigError
                           (server_key_message key (prefix_of config)))).
  unfold bad_server_key, server_keys in Hbad. now rewrite Hbad.
Qed.

Lemma createEnv_bad_client_key isServer config w k :
  bad_server_key config = None ->
  bad_client_key config = Some k ->
  createEnv isServer config w
  = (Throw (EnvConfigError (client_key_message k (prefix_of config))), w).
Proof.
  intros Hs Hc. unfold createEnv, bind at 1.
  rewrite (for_each_guard
             (fun key => prefixOk key (prefix_of config))
             (fun key => EnvConfigError
                           (server_key_message key (prefix_of config)))).
  unfold bad_server_key, server_keys in Hs. rewrite Hs.
  unfold bind at 1.
  rewrite (for_each_guard
             (fun key => negb (prefixOk key (prefix_of config)))
             (fun key => EnvConfigError
                           (client_key_message key (prefix_of config)))).
  unfold bad_client_key, client_keys in Hc. now rewrite Hc.
Qed.

(** Unfolding the monad on a concrete continuation, and bringing the heap
    to the form [old ++ new cells] with locations [length old + i]. *)
Ltac run_effects :=
  unfold bind, alloc, own_props, get_store, freeze, emit, ret, throw;
  cbn [store trace fst snd].

Ltac normalize_heap_pass :=
  repeat rewrite <- app_assoc;
  repeat rewrite length_app;
  cbn [app length];
  repeat rewrite <- Nat.add_assoc;
  cbn [Nat.add];
  repeat rewrite heap_props_new;
  repeat rewrite heap_props_first;
  repeat rewrite alter_app_r;
  cbn [heap_props lookup list_lookup alter list_alter props frozen].

Ltac normalize_heap := repeat (progress normalize_heap_pass).

(** Both loops of [createEnv] pass when no key breaks the prefix rule. *)
Ltac pass_checks config Hs Hc :=
  unfold createEnv, bind at 1;
  rewrite (for_each_guard
             (fun key => prefixOk key (prefix_of config))
             (fun key => EnvConfigError
                           (server_key_message key (prefix_of config))));
  unfold bad_server_key, server_keys in Hs; rewrite Hs;
  unfold bind at 1;
  rewrite (for_each_guard
             (fun key => negb (prefixOk key (prefix_of config)))
             (fun key => EnvConfigError
                           (client_key_message key (prefix_of config))));
  unfold bad_client_key, client_keys in Hc; rewrite Hc;
  cbv zeta.

Lemma createEnv_browser config w :
  bad_server_key config = None ->
  bad_client_key config = None ->
  createEnv false config w
  = let shape := makeObjectSchema (client config) in
    let env := runtimeEnv config in
    let n := length (store w) in
    let tr := trace w ++ map (field_event env) shape in
    match flat_map (field_issues env) shape with
    | [] =>
        (Return (mkGuarded (n + 3) false (server config)),
         mkWorld (store w ++
                  [ mkObject [] false;
                    mkObject (flat_map (field_data env) shape) false;
                    mkObject [] false;
                    mkObject (set_own (spread [] (flat_map (field_data env) shape))
                                      "client" (VRef (n + 1))) true ])
                 tr)
    | i :: more =>
        (Throw (EnvValidationError
                  (client_env_message (i :: more) (prefix_of config))),
         mkWorld (store w ++ [mkObject [] false]) tr)
    end.
Proof.
  intros Hs Hc. pass_checks config Hs Hc.
  unfold bind at 1. unfold bind at 1. unfold alloc at 1.
  unfold ret at 1. unfold bind at 1. rewrite safeParse_run.
  cbn [store trace].
  destruct (flat_map (field_issues (runtimeEnv config))
                     (makeObjectSchema (client config))) as [|i more].
  - rewrite andb_false_r. run_effects. normalize_heap. reflexivity.
  - reflexivity.
Qed.

Lemma createEnv_server_invalid config w i more :
  bad_server_key config = None ->
  bad_client_key config = None ->
  flat_map (field_issues (runtimeEnv config))
           (makeObjectSchema (server config)) = i :: more ->
  exists w',
    createEnv true config w
    = (Throw (EnvValidationError (server_env_message (i :: more))), w').
Proof.
  intros Hs Hc Hsi. pass_checks config Hs Hc.
  unfold bind at 1. rewrite safeParse_run, Hsi.
  unfold bind at 1. rewrite safeParse_run.
  destruct (flat_map (field_issues (runtimeEnv config))
                     (makeObjectSchema (client config)));
    eexists; reflexivity.
Qed.

Lemma createEnv_client_invalid config w i more :
  bad_server_key config = None ->
  bad_client_key config = None ->
  flat_map (field_issues (runtimeEnv config))
           (makeObjectSchema (server config)) = [] ->
  flat_map (field_issues (runtimeEnv config))
           (makeObjectSchema (client config)) = i :: more ->
  exists w',
    createEnv true config w
    = (Throw (EnvValidationError
                (client_env_message (i :: more) (prefix_of config))), w').
Proof.
  intros Hs Hc Hsi Hci. pass_checks config Hs Hc.
  unfold bind at 1. rewrite safeParse_run, Hsi.
  unfold bind at 1. rewrite safeParse_run, Hci.
  eexists; reflexivity.
Qed.

Lemma createEnv_server_built config w :
  bad_server_key config = None ->
  bad_client_key config = None ->
  flat_map (field_issues (runtimeEnv config))
           (makeObjectSchema (server config)) = [] ->
  flat_map (field_issues (runtimeEnv config))
           (makeObjectSchema (client config)) = [] ->
  exists tr,
    createEnv true config w
    = let env := runtimeEnv config in
      let n := length (store w) in
      let sdata := flat_map (field_data env) (makeObjectSchema (server config)) in
      let cdata := flat_map (field_data env) (makeObjectSchema (client config)) in
      (Return (mkGuarded (n + 2) true (server config)),
       mkWorld (store w ++
                [ mkObject sdata false;
                  mkObject cdata false;
                  mkObject (set_own (spread (spread [] sdata) cdata)
                                    "client" (VRef (n + 1))) true ])
               tr).
Proof.
  intros Hs Hc Hsi Hci. pass_checks config Hs Hc.
  unfold bind at 1. rewrite safeParse_run, Hsi.
  unfold bind at 1. rewrite safeParse_run, Hci.
  cbn [store trace]. rewrite andb_true_r.
  destruct (truthy (verbose config)).
  - run_effects. normalize_heap.
    match goal with
    | |- context [if ?c then _ else _] => destruct c
    end; run_effects; normalize_heap; eexists; reflexivity.
  - run_effects. normalize_heap. eexists; reflexivity.
Qed.

(** ** The prefix rule and the two loops *)

Lemma find_None_Forall {A} (p : A -> bool) (xs : list A) :
  find p xs = None <-> Forall (fun x => p x = false) xs.
Proof.
  induction xs as [|x xs IH]; simpl.
  - split; [constructor | reflexivity].
  - destruct (p x) eqn:Hp.
    + split; [discriminate|]. intros H. apply Forall_cons in H as [H _].
      congruence.
    + rewrite IH. split.
      * intros H. now constructor.
      * intros H. now apply Forall_cons in H as [_ H].
Qed.

Lemma find_Some_of_In {A} (p : A -> bool) (xs : list A) (x : A) :
  In x xs -> p x = true -> exists y, find p xs = Some y.
Proof.
  intros Hin Hp. destruct (find p xs) as [y|] eqn:Hfind; [eauto|].
  apply find_None_Forall in Hfind. rewrite Forall_forall in Hfind.
  apply list_elem_of_In in Hin. specialize (Hfind x Hin). congruence.
Qed.

Lemma prefixes_ok_checks config :
  prefixes_ok config <->
  bad_server_key config = None /\ bad_client_key config = None.
Proof.
  unfold prefixes_ok, bad_server_key, bad_client_key.
  rewrite !find_None_Forall. split; intros [Hs Hc]; split; try exact Hs.
  - eapply Forall_impl; [exact Hc|]. cbn. intros k ->. reflexivity.
  - eapply Forall_impl; [exact Hc|]. cbn. intros k Hk.
    now apply negb_false_iff in Hk.
Qed.

(** ** The issues and the data of a group *)

Lemma no_issues_all_valid (env : RuntimeEnv) (shape : list (string * Schema)) :
  flat_map (field_issues env) shape = [] <->
  Forall (fun kv => exists v, snd kv (env_get env (fst kv)) = Valid v) shape.
Proof.
  induction shape as [|[k sch] shape IH]; simpl.
  - split; [constructor | reflexivity].
  - unfold field_issues at 1. simpl.
    destruct (sch (env_get env k)) as [v|i more] eqn:Hsch.
    + simpl. rewrite IH. split.
      * intros H. constructor; [simpl; eauto | exact H].
      * intros H. now apply Forall_cons in H as [_ H].
    + simpl. split; [discriminate|].
      intros H. apply Forall_cons in H as [[v Hv] _]. simpl in Hv.
      congruence.
Qed.

Lemma valid_data_keys (env : RuntimeEnv) (shape : list (string * Schema)) :
  Forall (fun kv => exists v, snd kv (env_get env (fst kv)) = Valid v) shape ->
  keys_of (flat_map (field_data env) shape) = keys_of shape.
Proof.
  induction shape as [|[k sch] shape IH]; simpl; [reflexivity|].
  intros H. apply Forall_cons in H as [[v Hv] H]. simpl in Hv.
  unfold field_data at 1. simpl. rewrite Hv. simpl. now rewrite IH.
Qed.

Lemma data_keys_declared (env : RuntimeEnv) (shape : list (string * Schema))
      (k : string) :
  In k (keys_of (flat_map (field_data env) shape)) -> In k (keys_of shape).
Proof.
  induction shape as [|[k0 sch] shape IH]; simpl; [tauto|].
  unfold field_data at 1. simpl.
  destruct (sch (env_get env k0)); simpl; intuition.
Qed.

Lemma valid_data_In (env : RuntimeEnv) (shape : list (string * Schema))
      (k : string) (sch : Schema) (v : value) :
  In (k, sch) shape -> sch (env_get env k) = Valid v ->
  In (k, v) (flat_map (field_data env) shape).
Proof.
  intros Hin Hv. apply in_flat_map. exists (k, sch). split; [exact Hin|].
  unfold field_data. simpl. rewrite Hv. now left.
Qed.

Lemma In_set_own {A} (ps : list (string * A)) k v kv :
  In kv (set_own ps k v) -> In kv ps \/ kv = (k, v).
Proof.
  induction ps as [|[k0 v0] ps IH]; simpl.
  - intuition.
  - destruct (String.eqb_spec k k0) as [->|Hne]; simpl.
    + intuition.
    + intuition.
Qed.

Lemma In_spread {A} (qs : list (string * A)) : forall ps kv,
  In kv (spread ps qs) -> In kv ps \/ In kv qs.
Proof.
  unfold spread. induction qs as [|[k0 v0] qs IH]; intros ps kv; simpl.
  - tauto.
  - intros H. apply IH in H as [H|H]; [|tauto].
    apply In_set_own in H as [H|H]; [tauto|]. simpl in H. intuition.
Qed.

Lemma makeObjectSchema_In (m : SchemaMap) kv :
  In kv (makeObjectSchema m) -> In kv (entries m).
Proof.
  unfold makeObjectSchema. intros H. apply In_spread in H as [[]|H].
  exact H.
Qed.

Lemma makeObjectSchema_keys (m : SchemaMap) k :
  In k (keys_of (makeObjectSchema m)) <-> In k (keys_of (entries m)).
Proof.
  unfold makeObjectSchema. rewrite keys_spread. simpl. tauto.
Qed.

Lemma makeObjectSchema_ordinary (m : SchemaMap) :
  ordinary_keys m -> makeObjectSchema m = entries m.
Proof. intros [Hnd _]. now apply spread_nil_NoDup. Qed.

(** ** Successful constructions *)

Lemma createEnv_Return_inv isServer config w g w' :
  createEnv isServer config w = (Return g, w') ->
  bad_server_key config = None
  /\ bad_client_key config = None
  /\ (isServer = true ->
      flat_map (field_issues (runtimeEnv config))
               (makeObjectSchema (server config)) = [])
  /\ flat_map (field_issues (runtimeEnv config))
              (makeObjectSchema (client config)) = []
  /\ built_from isServer config w g w'.
Proof.
  intros Hrun.
  destruct (bad_server_key config) as [k|] eqn:Hs.
  { rewrite (createEnv_bad_server_key _ _ _ k Hs) in Hrun. discriminate. }
  destruct (bad_client_key config) as [k|] eqn:Hc.
  { rewrite (createEnv_bad_client_key _ _ _ k Hs Hc) in Hrun. discriminate. }
  split; [reflexivity|]. split; [reflexivity|].
  destruct isServer.
  - destruct (flat_map (field_issues (runtimeEnv config))
                       (makeObjectSchema (server config)))
      as [|i more] eqn:Hsi.
    2:{ destruct (createEnv_server_invalid config w i more Hs Hc Hsi)
          as [w0 H0]. rewrite H0 in Hrun. discriminate. }
    destruct (flat_map (field_issues (runtimeEnv config))
                       (makeObjectSchema (client config)))
      as [|i more] eqn:Hci.
    2:{ destruct (createEnv_client_invalid config w i more Hs Hc Hsi Hci)
          as [w0 H0]. rewrite H0 in Hrun. discriminate. }
    split; [reflexivity|]. split; [reflexivity|].
    destruct (createEnv_server_built config w Hs Hc Hsi Hci) as [tr H0].
    rewrite H0 in Hrun. cbv zeta in Hrun. injection Hrun as <- <-.
    unfold built_from. cbn [target store].
    repeat split.
    + eexists; reflexivity.
    + lia.
    + rewrite length_app. simpl. lia.
    + rewrite heap_props_new. reflexivity.
    + rewrite heap_frozen_new. reflexivity.
    + rewrite heap_props_new. reflexivity.
    + rewrite heap_frozen_new. reflexivity.
  - rewrite (createEnv_browser config w Hs Hc) in Hrun. cbv zeta in Hrun.
    destruct (flat_map (field_issues (runtimeEnv config))
                       (makeObjectSchema (client config)))
      as [|i more] eqn:Hci; [|discriminate].
    split; [discriminate|]. split; [reflexivity|].
    injection Hrun as <- <-.
    unfold built_from. cbn [target store].
    repeat split.
    + eexists; reflexivity.
    + lia.
    + rewrite length_app. simpl. lia.
    + rewrite heap_props_new. reflexivity.
    + rewrite heap_frozen_new. reflexivity.
    + rewrite heap_props_new. reflexivity.
    + rewrite heap_frozen_new. reflexivity.
Qed.

(** When no key breaks the prefix rule and the validated groups raise no
    issue, the construction returns. *)
Lemma createEnv_succeeds isServer config w :
  prefixes_ok config ->
  (isServer = true ->
   flat_map (field_issues (runtimeEnv config))
            (makeObjectSchema (server config)) = []) ->
  flat_map (field_issues (runtimeEnv config))
           (makeObjectSchema (client config)) = [] ->
  exists g w', createEnv isServer config w = (Return g, w').
Proof.
  intros Hok Hsi Hci. apply prefixes_ok_checks in Hok as [Hs Hc].
  destruct isServer.
  - destruct (createEnv_server_built config w Hs Hc (Hsi eq_refl) Hci)
      as [tr H]. rewrite H. cbv zeta. eauto.
  - rewrite (createEnv_browser config w Hs Hc). cbv zeta. rewrite Hci. eauto.
Qed.

(** [isError] holds of the failures and of nothing else. *)
Lemma isError_Failure (r : SafeParseResult) :
  isError r = true <-> exists issues, r = Failure issues.
Proof.
  destruct r as [data|issues]; simpl; split.
  - discriminate.
  - intros [issues H]. discriminate.
  - eauto.
  - reflexivity.
Qed.

(** ** The access guard *)

Lemma mem_string_In (k : string) (ks : list string) :
  mem_string k ks = true <-> In k ks.
Proof.
  unfold mem_string. rewrite existsb_exists. split.
  - intros (x & Hin & Heq). apply String.eqb_eq in Heq. now subst.
  - intros Hin. exists k. split; [exact Hin | apply String.eqb_refl].
Qed.

(** In a browser context the read of a declared server key throws, whether
    or not the target holds the key. *)
Lemma guarded_get_server_key (g : Guarded) (k : string) (h : heap) :
  guard_isServer g = false ->
  In k (keys_of (entries (guard_server g))) ->
  guarded_get g (PString k) h = Throw (EnvConfigError (guard_message k)).
Proof.
  intros Hctx Hin. unfold guarded_get. rewrite Hctx. simpl.
  unfold has_property. apply mem_string_In in Hin. now rewrite Hin.
Qed.

(** In a browser context the read of a name that [Object.prototype]
    defines throws as well, when the server group is an object literal. *)
Lemma guarded_get_inherited_name (g : Guarded) (k : string) (h : heap) :
  guard_isServer g = false ->
  proto (guard_server g) = ObjectPrototype ->
  In k ObjectPrototype_names ->
  guarded_get g (PString k) h = Throw (EnvConfigError (guard_message k)).
Proof.
  intros Hctx Hproto Hin. unfold guarded_get. rewrite Hctx. simpl.
  unfold has_property. rewrite Hproto. apply mem_string_In in Hin.
  rewrite Hin. now rewrite orb_true_r.
Qed.

(** Every other read returns what the target holds. *)
Lemma guarded_get_pass_through (g : Guarded) (prop : propkey) (h : heap) :
  guard_isServer g = true \/ prop_in prop (guard_server g) = false ->
  guarded_get g prop h = Return (obj_get h (target g) prop).
Proof.
  intros [Hctx|Hout]; unfold guarded_get.
  - now rewrite Hctx.
  - rewrite Hout. now rewrite andb_false_r.
Qed.

(** The target of a constructed proxy is frozen: an assignment or a
    deletion through the proxy fails and changes nothing. *)
Lemma createEnv_target_immutable isServer config w g w' k v :
  createEnv isServer config w = (Return g, w') ->
  guarded_set g k v (store w') = (false, store w')
  /\ snd (guarded_delete g k (store w')) = store w'.
Proof.
  intros Hrun. apply createEnv_Return_inv in Hrun as (_ & _ & _ & _ & Hb).
  destruct Hb as (_ & _ & _ & _ & _ & _ & Hfrozen).
  split.
  - now apply obj_set_frozen.
  - now apply obj_delete_frozen.
Qed.

(** * The claims *)

(** C1 (defect of the [get] trap). The claim lets every property that is
    not a declared server key through.  In a browser context the guard
    tests [prop in server], which also holds for the names inherited from
    [Object.prototype]: on the sample configuration the read of
    [toString], declared in neither group, throws the Configuration Error
    instead of returning the inherited member the target would give. *)
Theorem guard_rejects_inherited_name :
  exists g w,
    createEnv false sample_config empty_world = (Return g, w)
    /\ ~ In "toString" (server_keys sample_config)
    /\ ~ In "toString" (client_keys sample_config)
    /\ obj_get (store w) (target g) (PString "toString") = VNative "toString"
    /\ guarded_get g (PString "toString") (store w)
       = Throw (EnvConfigError (guard_message "toString")).
Proof.
  do 2 eexists. split; [lazy; reflexivity|].
  split; [simpl; intuition discriminate|].
  split; [simpl; intuition discriminate|].
  split; reflexivity.
Qed.

(** C2. If a server key starts with the Client Prefix, or a client key does
    not, [createEnv] throws a Configuration Error in both execution
    contexts, and it does so before any parsing: the world is left as it
    was, so no validator has run and nothing was allocated. *)
Theorem prefix_validation_first isServer config w :
  (exists k, In k (server_keys config)
             /\ prefixOk k (prefix_of config) = true)
  \/ (exists k, In k (client_keys config)
                /\ prefixOk k (prefix_of config) = false) ->
  exists msg,
    createEnv isServer config w = (Throw (EnvConfigError msg), w).
Proof.
  intros Hbad.
  destruct (bad_server_key config) as [k|] eqn:Hs.
  { eexists. apply createEnv_bad_server_key. exact Hs. }
  destruct (bad_client_key config) as [k|] eqn:Hc.
  { eexists. apply createEnv_bad_client_key; [exact Hs | exact Hc]. }
  exfalso. destruct Hbad as [(k & Hin & Hk)|(k & Hin & Hk)].
  - destruct (find_Some_of_In
                (fun k => prefixOk k (prefix_of config)) _ k Hin Hk)
      as [y Hy].
    unfold bad_server_key in Hs. congruence.
  - assert (Hk' : negb (prefixOk k (prefix_of config)) = true)
      by now rewrite Hk.
    destruct (find_Some_of_In
                (fun k => negb (prefixOk k (prefix_of config))) _ k Hin Hk')
      as [y Hy].
    unfold bad_client_key in Hc. congruence.
Qed.

Lemma prefix_validation_first_witness :
  ((exists k, In k (server_keys config_public_server_key)
              /\ prefixOk k (prefix_of config_public_server_key) = true)
   \/ (exists k, In k (client_keys config_public_server_key)
                 /\ prefixOk k (prefix_of config_public_server_key) = false))
  /\ exists msg,
       createEnv false config_public_server_key empty_world
       = (Throw (EnvConfigError msg), empty_world).
Proof.
  assert (H : (exists k, In k (server_keys config_public_server_key)
              /\ prefixOk k (prefix_of config_public_server_key) = true)
   \/ (exists k, In k (client_keys config_public_server_key)
                 /\ prefixOk k (prefix_of config_public_server_key) = false)).
  { left. exists "NEXT_PUBLIC_FOO". split; [simpl; auto | reflexivity]. }
  split; [exact H|].
  exact (prefix_validation_first false config_public_server_key empty_world H).
Defined.

(** C9. With the empty string as Client Prefix every key starts with the
    prefix: a configuration with a non-empty server group is rejected with
    the Configuration Error of its first server key, in both contexts and
    before anything else happens, while every client key passes the
    check. *)
Theorem empty_prefix_rejects_server_group isServer config w :
  clientPrefix config = Some EmptyString ->
  server_keys config <> [] ->
  (exists k rest,
     server_keys config = k :: rest
     /\ createEnv isServer config w
        = (Throw (EnvConfigError (server_key_message k EmptyString)), w))
  /\ Forall (fun k => prefixOk k (prefix_of config) = true)
            (client_keys config).
Proof.
  intros Hprefix Hne.
  assert (Hp : prefix_of config = EmptyString)
    by (unfold prefix_of; now rewrite Hprefix).
  assert (Hall : forall k, prefixOk k EmptyString = true)
    by (intros k; unfold prefixOk; now destruct k).
  split.
  - destruct (server_keys config) as [|k rest] eqn:Hkeys; [congruence|].
    exists k, rest. split; [reflexivity|].
    rewrite <- Hp. apply createEnv_bad_server_key.
    unfold bad_server_key. rewrite Hkeys, Hp. simpl. now rewrite Hall.
  - rewrite Hp. apply Forall_forall. intros k _. apply Hall.
Qed.

Lemma empty_prefix_rejects_server_group_witness :
  clientPrefix config_empty_prefix = Some EmptyString
  /\ server_keys config_empty_prefix <> []
  /\ (exists k rest,
        server_keys config_empty_prefix = k :: rest
        /\ createEnv true config_empty_prefix empty_world
           = (Throw (EnvConfigError (server_key_message k EmptyString)),
              empty_world))
  /\ Forall (fun k => prefixOk k (prefix_of config_empty_prefix) = true)
            (client_keys config_empty_prefix).
Proof.
  assert (H1 : clientPrefix config_empty_prefix = Some EmptyString)
    by reflexivity.
  assert (H2 : server_keys config_empty_prefix <> []) by discriminate.
  split; [exact H1|]. split; [exact H2|].
  exact (empty_prefix_rejects_server_group true config_empty_prefix
           empty_world H1 H2).
Defined.

(** C10. A key declared in both groups cannot both start and not start
    with the Client Prefix: [createEnv] throws a Configuration Error in
    every execution context, so the groups of a successful construction
    are disjoint. *)
Theorem shared_key_rejected isServer config w k :
  In k (server_keys config) ->
  In k (client_keys config) ->
  exists msg,
    createEnv isServer config w = (Throw (EnvConfigError msg), w).
Proof.
  intros Hins Hinc.
  destruct (bad_server_key config) as [k1|] eqn:Hs.
  { eexists. apply createEnv_bad_server_key. exact Hs. }
  destruct (bad_client_key config) as [k2|] eqn:Hc.
  { eexists. apply createEnv_bad_client_key; [exact Hs | exact Hc]. }
  exfalso.
  apply find_None_Forall in Hs, Hc. rewrite Forall_forall in Hs, Hc.
  specialize (Hs k (proj2 (list_elem_of_In _ _) Hins)).
  specialize (Hc k (proj2 (list_elem_of_In _ _) Hinc)).
  cbn in Hs, Hc. rewrite Hs in Hc. discriminate.
Qed.

Lemma shared_key_rejected_witness :
  In "SHARED" (server_keys config_shared_key)
  /\ In "SHARED" (client_keys config_shared_key)
  /\ exists msg,
       createEnv false config_shared_key empty_world
       = (Throw (EnvConfigError msg), empty_world).
Proof.
  assert (H1 : In "SHARED" (server_keys config_shared_key))
    by (simpl; auto).
  assert (H2 : In "SHARED" (client_keys config_shared_key))
    by (simpl; auto).
  split; [exact H1|]. split; [exact H2|].
  exact (shared_key_rejected false config_shared_key empty_world
           "SHARED" H1 H2).
Defined.

(** C4 (defect of the construction). The claim makes the nested [client]
    object immutable.  [Object.freeze(target)] freezes the target alone;
    its [client] field is the very object the validation returned, which
    stays writable: on the sample configuration a caller who assigns
    [env.client.NEXT_PUBLIC_API_URL] succeeds, and the validated value
    read through [env.client] afterwards is the assigned one. *)
Theorem client_subobject_is_mutable :
  exists g w cd h,
    createEnv true sample_config empty_world = (Return g, w)
    /\ guarded_get g (PString "client") (store w) = Return (VRef cd)
    /\ obj_get (store w) cd (PString "NEXT_PUBLIC_API_URL")
       = VString "https://api"
    /\ obj_set (store w) cd "NEXT_PUBLIC_API_URL" (VString "evil") = (true, h)
    /\ guarded_get g (PString "client") h = Return (VRef cd)
    /\ obj_get h cd (PString "NEXT_PUBLIC_API_URL") = VString "evil".
Proof.
  do 4 eexists. split; [lazy; reflexivity|].
  split; [reflexivity|]. split; [reflexivity|].
  split; [lazy; reflexivity|]. split; reflexivity.
Qed.

(** C3. In a browser execution context the server group is not validated:
    the only validators run are those of client fields, a Validation Error
    is never the report of the server group but that of the client group,
    and the target of a constructed proxy is built from the client data and
    the [client] field alone, so that it holds no declared server key,
    whatever the runtime environment binds to it. *)
Theorem browser_skips_server_validation config w r w' :
  createEnv false config w = (r, w') ->
  let env := runtimeEnv config in
  (exists evs,
      trace w' = trace w ++ evs
      /\ forall e, In e evs ->
           exists kv, In kv (entries (client config)) /\ e = field_event env kv)
  /\ (forall msg, r = Throw (EnvValidationError msg) ->
       (forall issues, msg <> server_env_message issues)
       /\ msg = client_env_message
                  (flat_map (field_issues env) (makeObjectSchema (client config)))
                  (prefix_of config))
  /\ (forall g, r = Return g ->
       exists cd,
         heap_props (store w') (target g)
         = set_own (spread [] (heap_props (store w') cd)) "client" (VRef cd)
         /\ (forall k, In k (keys_of (heap_props (store w') cd)) ->
                       In k (client_keys config))
         /\ (forall k, In k (server_keys config) -> k <> "client" ->
                       own_get (heap_props (store w') (target g)) k = None)).
Proof.
  intros Hrun env.
  destruct (bad_server_key config) as [k|] eqn:Hs.
  { rewrite (createEnv_bad_server_key _ _ _ k Hs) in Hrun.
    injection Hrun as <- <-. split; [|split]; try discriminate.
    exists []. split; [now rewrite app_nil_r | intros e []]. }
  destruct (bad_client_key config) as [k|] eqn:Hc.
  { rewrite (createEnv_bad_client_key _ _ _ k Hs Hc) in Hrun.
    injection Hrun as <- <-. split; [|split]; try discriminate.
    exists []. split; [now rewrite app_nil_r | intros e []]. }
  rewrite (createEnv_browser config w Hs Hc) in Hrun. cbv zeta in Hrun.
  fold env in Hrun.
  assert (Hevents : forall e,
             In e (map (field_event env) (makeObjectSchema (client config))) ->
             exists kv, In kv (entries (client config))
                        /\ e = field_event env kv).
  { intros e He. apply in_map_iff in He as (kv & <- & Hin).
    exists kv. split; [now apply makeObjectSchema_In | reflexivity]. }
  destruct (flat_map (field_issues env) (makeObjectSchema (client config)))
    as [|i more] eqn:Hci; injection Hrun as <- <-; cbn [store trace].
  - split; [eauto|]. split; [discriminate|].
    intros g [= <-]. cbn [target].
    exists (length (store w) + 1).
    rewrite !heap_props_new. cbn.
    split; [reflexivity|]. split.
    + intros k Hk. apply data_keys_declared in Hk.
      now apply makeObjectSchema_keys in Hk.
    + intros k Hk Hne. apply own_get_None. rewrite keys_set_own.
      intros [Hin|Heq]; [|congruence].
      apply keys_spread in Hin as [[]|Hin].
      apply data_keys_declared, makeObjectSchema_keys in Hin.
      apply find_None_Forall in Hs, Hc. rewrite Forall_forall in Hs, Hc.
      specialize (Hs k (proj2 (list_elem_of_In _ _) Hk)).
      specialize (Hc k (proj2 (list_elem_of_In _ _) Hin)).
      cbn in Hs, Hc. rewrite Hs in Hc. discriminate.
  - split; [eauto|]. split; [|discriminate].
    intros msg [= <-]. split; [|reflexivity].
    intros issues. unfold client_env_message, server_env_message.
    simpl. discriminate.
Qed.

Lemma browser_skips_server_validation_witness :
  exists r w',
    createEnv false config_without_database empty_world = (r, w')
    /\ (forall g, r = Return g ->
         exists cd,
           heap_props (store w') (target g)
           = set_own (spread [] (heap_props (store w') cd)) "client" (VRef cd)
           /\ (forall k, In k (keys_of (heap_props (store w') cd)) ->
                         In k (client_keys config_without_database))
           /\ (forall k, In k (server_keys config_without_database) ->
                         k <> "client" ->
                         own_get (heap_props (store w') (target g)) k = None)).
Proof.
  eexists _, _.
  assert (Hrun : createEnv false config_without_database empty_world
                 = (Return (mkGuarded 3 false (server config_without_database)),
                    snd (createEnv false config_without_database empty_world)))
    by reflexivity.
  split; [exact Hrun|].
  exact (proj2 (proj2 (browser_skips_server_validation
                         config_without_database empty_world _ _ Hrun))).
Defined.

(** The client data of a successful construction, read through the
    [client] field of the target. *)
Lemma client_view_built isServer config w g w' :
  createEnv isServer config w = (Return g, w') ->
  client_view g w'
  = ViewObject (flat_map (field_data (runtimeEnv config))
                         (makeObjectSchema (client config))).
Proof.
  intros Hrun. apply createEnv_Return_inv in Hrun as (_ & _ & _ & _ & Hb).
  destruct Hb as (_ & _ & _ & Hcd & _ & Htarget & _).
  unfold client_view, obj_get. rewrite Htarget, own_get_set_own.
  rewrite String.eqb_refl. simpl. now rewrite Hcd.
Qed.

(** C5. After a successful construction the [client] sub-object holds the
    declared client keys and nothing else, each bound to the value its
    schema validated; what it shows is the same in every other successful
    construction from the same configuration, whatever the execution
    context. *)
Theorem client_subobject_contents isServer config w g w' :
  ordinary_keys (client config) ->
  createEnv isServer config w = (Return g, w') ->
  let env := runtimeEnv config in
  exists ps,
    client_view g w' = ViewObject ps
    /\ keys_of ps = client_keys config
    /\ (forall k sch, In (k, sch) (entries (client config)) ->
          exists v, sch (env_get env k) = Valid v /\ own_get ps k = Some v)
    /\ (forall isServer2 w2 g2 w2',
          createEnv isServer2 config w2 = (Return g2, w2') ->
          client_view g2 w2' = ViewObject ps).
Proof.
  intros Hord Hrun env.
  exists (flat_map (field_data env) (makeObjectSchema (client config))).
  split; [now apply (client_view_built isServer config w)|].
  apply createEnv_Return_inv in Hrun as (_ & _ & _ & Hci & _).
  rewrite (makeObjectSchema_ordinary _ Hord) in *.
  apply no_issues_all_valid in Hci.
  pose proof (valid_data_keys _ _ Hci) as Hkeys.
  split; [exact Hkeys|]. split.
  - intros k sch Hin.
    rewrite Forall_forall in Hci.
    destruct (Hci (k, sch) (proj2 (list_elem_of_In _ _) Hin)) as [v Hv].
    simpl in Hv. exists v. split; [exact Hv|].
    apply own_get_NoDup.
    + fold env in Hkeys. rewrite Hkeys. apply Hord.
    + now apply valid_data_In with (sch := sch).
  - intros isServer2 w2 g2 w2' Hrun2.
    rewrite <- (makeObjectSchema_ordinary _ Hord).
    now apply (client_view_built isServer2 config w2).
Qed.

Lemma client_subobject_contents_witness :
  ordinary_keys (client sample_config)
  /\ exists g w' ps,
       createEnv false sample_config empty_world = (Return g, w')
       /\ client_view g w' = ViewObject ps
       /\ keys_of ps = client_keys sample_config.
Proof.
  assert (Hord : ordinary_keys (client sample_config)).
  { split; [|simpl; intuition discriminate].
    simpl. apply NoDup_singleton. }
  split; [exact Hord|].
  assert (Hrun : createEnv false sample_config empty_world
                 = (Return (mkGuarded 3 false (server sample_config)),
                    snd (createEnv false sample_config empty_world)))
    by reflexivity.
  destruct (client_subobject_contents false sample_config empty_world
              _ _ Hord Hrun) as (ps & Hview & Hkeys & _).
  exists (mkGuarded 3 false (server sample_config)),
         (snd (createEnv false sample_config empty_world)), ps.
  split; [exact Hrun|]. split; [exact Hview | exact Hkeys].
Defined.

(** ** The validation report *)

Lemma failing_field_reported (env : RuntimeEnv) (m : SchemaMap)
      (k : string) (sch : Schema) (i : issue) (more : list issue) :
  In (k, sch) (entries m) ->
  sch (env_get env k) = Invalid i more ->
  In (mkIssue (k :: path i) (message i)) (group_issues env m).
Proof.
  intros Hin Hsch. unfold group_issues. apply in_flat_map.
  exists (k, sch). split; [exact Hin|].
  unfold field_issues. simpl. rewrite Hsch. now left.
Qed.

(** C6, as stated, fails in three ways.  In a browser context a runtime
    environment that fails the server schema raises nothing.  In a server
    context where both groups fail, the report is that of the server group
    and leaves the failing client field out.  And when a key breaks the
    prefix rule, a failing environment raises the Configuration Error. *)
Lemma validation_report_counterexample :
  (group_issues (runtimeEnv config_without_database)
                (server config_without_database) <> []
   /\ exists g w,
        createEnv false config_without_database empty_world = (Return g, w))
  /\ (group_issues (runtimeEnv config_on_empty_env)
                   (client config_on_empty_env) <> []
      /\ exists msg w,
           createEnv true config_on_empty_env empty_world
           = (Throw (EnvValidationError msg), w)
           /\ mentions msg "NEXT_PUBLIC_API_URL" = false)
  /\ (group_issues (runtimeEnv config_public_server_key)
                   (server config_public_server_key) <> []
      /\ exists msg w,
           createEnv true config_public_server_key empty_world
           = (Throw (EnvConfigError msg), w)).
Proof.
  split; [|split]; split.
  - discriminate.
  - do 2 eexists. lazy. reflexivity.
  - discriminate.
  - do 2 eexists. split; [lazy; reflexivity | vm_compute; reflexivity].
  - discriminate.
  - do 2 eexists. lazy. reflexivity.
Qed.

(** C6 (amended). For correctly prefixed groups, when a group that the
    execution context validates fails (the server group in a server
    context, the client group in both), [createEnv] throws a Validation
    Error for the first failing group, the server group before the client
    group: a header, then every issue of that group as its dotted path, a
    colon and its reason, one per line, then the hint of the group.  Every
    failing field of a group has its line among the issues of the group. *)
Theorem validation_report isServer config w :
  prefixes_ok config ->
  ordinary_keys (server config) ->
  ordinary_keys (client config) ->
  let env := runtimeEnv config in
  let si := group_issues env (server config) in
  let ci := group_issues env (client config) in
  let line := fun i => String.concat "." (path i) +:+ ": " +:+ message i in
  (isServer = true /\ si <> []) \/ ci <> [] ->
  (exists w',
     createEnv isServer config w
     = (Throw (EnvValidationError
                 (if isServer && nonempty si
                  then "Invalid SERVER env:" +:+ newline
                       +:+ String.concat newline (map line si)
                       +:+ newline +:+ newline
                       +:+ "Hint: Ensure required server variables exist in your runtime."
                  else "Invalid CLIENT env:" +:+ newline
                       +:+ String.concat newline (map line ci)
                       +:+ newline +:+ newline
                       +:+ "Hint: All client variables must be prefixed with '"
                       +:+ prefix_of config +:+ "'.")),
        w'))
  /\ (forall m k sch i more,
        In (k, sch) (entries m) ->
        sch (env_get env k) = Invalid i more ->
        In (line (mkIssue (k :: path i) (message i)))
           (map line (group_issues env m))).
Proof.
  intros Hok Hsord Hcord env si ci line Hfail.
  split.
  2:{ intros m k sch i more Hin Hsch. apply in_map.
      now apply failing_field_reported with (sch := sch) (more := more). }
  apply prefixes_ok_checks in Hok as [Hs Hc].
  unfold si, ci, group_issues in *.
  rewrite <- (makeObjectSchema_ordinary _ Hsord) in *.
  rewrite <- (makeObjectSchema_ordinary _ Hcord) in *.
  destruct isServer.
  - destruct (flat_map (field_issues env) (makeObjectSchema (server config)))
      as [|i more] eqn:Hsi.
    + destruct Hfail as [[_ Hne]|Hne]; [congruence|].
      destruct (flat_map (field_issues env) (makeObjectSchema (client config)))
        as [|j rest] eqn:Hci; [congruence|].
      destruct (createEnv_client_invalid config w j rest Hs Hc Hsi Hci)
        as [w' Hrun].
      exists w'. exact Hrun.
    + destruct (createEnv_server_invalid config w i more Hs Hc Hsi)
        as [w' Hrun].
      exists w'. exact Hrun.
  - destruct Hfail as [[Hctx _]|Hne]; [discriminate|].
    rewrite (createEnv_browser config w Hs Hc). cbv zeta. fold env.
    destruct (flat_map (field_issues env) (makeObjectSchema (client config)))
      as [|j rest] eqn:Hci; [congruence|].
    eexists. reflexivity.
Qed.

Lemma validation_report_witness :
  prefixes_ok config_on_empty_env
  /\ ordinary_keys (server config_on_empty_env)
  /\ ordinary_keys (client config_on_empty_env)
  /\ exists w',
       createEnv true config_on_empty_env empty_world
       = (Throw (EnvValidationError
                   (server_env_message
                      [mkIssue ["DATABASE_URL"] "Required"])), w').
Proof.
  assert (Hok : prefixes_ok config_on_empty_env).
  { split; repeat constructor. }
  assert (Hs : ordinary_keys (server config_on_empty_env)).
  { split; [apply NoDup_singleton | simpl; intuition discriminate]. }
  assert (Hc : ordinary_keys (client config_on_empty_env)).
  { split; [apply NoDup_singleton | simpl; intuition discriminate]. }
  split; [exact Hok|]. split; [exact Hs|]. split; [exact Hc|].
  assert (Hfail : (true = true
                   /\ group_issues (runtimeEnv config_on_empty_env)
                                   (server config_on_empty_env) <> [])
                  \/ group_issues (runtimeEnv config_on_empty_env)
                                  (client config_on_empty_env) <> []).
  { left. split; [reflexivity | discriminate]. }
  exact (proj1 (validation_report true config_on_empty_env empty_world
                  Hok Hs Hc Hfail)).
Defined.

(** ** What the target holds *)

Lemma own_get_rev_NoDup {A} (ps : list (string * A)) (k : string) :
  NoDup (keys_of ps) -> own_get (rev ps) k = own_get ps k.
Proof.
  intros Hnd.
  assert (Hnd' : NoDup (keys_of (rev ps))).
  { unfold keys_of. rewrite map_rev.
    exact (proj1 (NoDup_Permutation_proper _ _ (Permutation_rev _)) Hnd). }
  destruct (own_get ps k) as [v|] eqn:Hget.
  - apply own_get_NoDup; [exact Hnd'|].
    apply in_rev. rewrite rev_involutive. now apply own_get_In.
  - apply own_get_None. apply own_get_None in Hget.
    intros Hin. apply Hget. unfold keys_of in *. rewrite map_rev in Hin.
    now apply in_rev in Hin.
Qed.

(** The validated data of a group whose fields are all valid. *)
Lemma valid_data_lookup (env : RuntimeEnv) (m : SchemaMap)
      (k : string) (sch : Schema) :
  ordinary_keys m ->
  satisfies env m ->
  In (k, sch) (entries m) ->
  exists v, sch (env_get env k) = Valid v
            /\ own_get (group_data env m) k = Some v.
Proof.
  intros [Hnd _] Hsat Hin. unfold satisfies in Hsat.
  pose proof (valid_data_keys _ _ Hsat) as Hkeys.
  rewrite Forall_forall in Hsat.
  destruct (Hsat (k, sch) (proj2 (list_elem_of_In _ _) Hin)) as [v Hv].
  simpl in Hv. exists v. split; [exact Hv|].
  apply own_get_NoDup.
  - unfold group_data. now rewrite Hkeys.
  - now apply valid_data_In with (sch := sch).
Qed.

Lemma group_data_NoDup (env : RuntimeEnv) (m : SchemaMap) :
  ordinary_keys m -> satisfies env m ->
  NoDup (keys_of (group_data env m)).
Proof.
  intros [Hnd _] Hsat. unfold group_data.
  now rewrite (valid_data_keys _ _ Hsat).
Qed.

(** C7, as stated, fails twice.  In a browser context the result does not
    hold a declared server key, and its read throws.  In a server context a
    declared key named [client] is not bound to its validated value but to
    the client sub-object. *)
Lemma declared_values_counterexample :
  (prefixes_ok sample_config
   /\ satisfies (runtimeEnv sample_config) (server sample_config)
   /\ satisfies (runtimeEnv sample_config) (client sample_config)
   /\ In "DATABASE_URL" (server_keys sample_config)
   /\ exists g w,
        createEnv false sample_config empty_world = (Return g, w)
        /\ own_get (heap_props (store w) (target g)) "DATABASE_URL" = None
        /\ guarded_get g (PString "DATABASE_URL") (store w)
           = Throw (EnvConfigError (guard_message "DATABASE_URL")))
  /\ (prefixes_ok config_server_key_client
      /\ satisfies (runtimeEnv config_server_key_client)
                   (server config_server_key_client)
      /\ satisfies (runtimeEnv config_server_key_client)
                   (client config_server_key_client)
      /\ z_string (env_get (runtimeEnv config_server_key_client) "client")
         = Valid (VString "secret")
      /\ exists g w,
           createEnv true config_server_key_client empty_world = (Return g, w)
           /\ guarded_get g (PString "client") (store w) = Return (VRef 1)).
Proof.
  split.
  - split; [split; repeat constructor|].
    split; [repeat constructor; simpl; eauto|].
    split; [repeat constructor; simpl; eauto|].
    split; [simpl; auto|].
    do 2 eexists. split; [lazy; reflexivity|]. split; reflexivity.
  - split; [split; repeat constructor|].
    split; [repeat constructor; simpl; eauto|].
    split; [repeat constructor; simpl; eauto|].
    split; [reflexivity|].
    do 2 eexists. split; [lazy; reflexivity|]. reflexivity.
Qed.

(** C7 (amended). For correctly prefixed groups and a runtime environment
    that satisfies both schemas, the construction succeeds in both
    contexts.  The result holds every declared client key other than
    [client] with its validated value; in a server context it also holds
    every declared server key other than [client] with its validated value,
    and reading it through the proxy returns that value.  Every own key of
    the result is a declared key or [client]: the other keys of the runtime
    environment are ignored. *)
Theorem valid_environment_builds isServer config w :
  prefixes_ok config ->
  ordinary_keys (server config) ->
  ordinary_keys (client config) ->
  satisfies (runtimeEnv config) (server config) ->
  satisfies (runtimeEnv config) (client config) ->
  let env := runtimeEnv config in
  exists g w',
    createEnv isServer config w = (Return g, w')
    /\ (forall k sch,
          In (k, sch) (entries (client config)) -> k <> "client" ->
          exists v, sch (env_get env k) = Valid v
                    /\ own_get (heap_props (store w') (target g)) k = Some v)
    /\ (isServer = true ->
        forall k sch,
          In (k, sch) (entries (server config)) -> k <> "client" ->
          exists v, sch (env_get env k) = Valid v
                    /\ own_get (heap_props (store w') (target g)) k = Some v
                    /\ guarded_get g (PString k) (store w') = Return v)
    /\ (forall k,
          In k (keys_of (heap_props (store w') (target g))) ->
          In k (server_keys config) \/ In k (client_keys config)
          \/ k = "client").
Proof.
  intros Hok Hsord Hcord Hssat Hcsat env.
  pose proof (makeObjectSchema_ordinary _ Hsord) as Hsshape.
  pose proof (makeObjectSchema_ordinary _ Hcord) as Hcshape.
  assert (Hsi : flat_map (field_issues env) (makeObjectSchema (server config))
                = [])
    by (rewrite Hsshape; now apply no_issues_all_valid).
  assert (Hci : flat_map (field_issues env) (makeObjectSchema (client config))
                = [])
    by (rewrite Hcshape; now apply no_issues_all_valid).
  destruct (createEnv_succeeds isServer config w Hok (fun _ => Hsi) Hci)
    as (g & w' & Hrun).
  exists g, w'. split; [exact Hrun|].
  apply createEnv_Return_inv in Hrun as (_ & _ & _ & _ & Hb).
  destruct Hb as (Hg & _ & _ & _ & _ & Htarget & _).
  rewrite Htarget, Hsshape, Hcshape.
  change (flat_map (field_data (runtimeEnv config)) (entries (client config)))
    with (group_data env (client config)).
  change (flat_map (field_data (runtimeEnv config)) (entries (server config)))
    with (group_data env (server config)).
  pose proof (group_data_NoDup env _ Hcord Hcsat) as Hcnd.
  pose proof (group_data_NoDup env _ Hsord Hssat) as Hsnd.
  assert (Hinner : forall k, k <> "client" ->
            own_get (set_own
                       (spread (spread []
                                  (if isServer
                                   then group_data env (server config)
                                   else []))
                               (group_data env (client config)))
                       "client" (VRef (length (store w) + 1))) k
            = match own_get (group_data env (client config)) k with
              | Some v => Some v
              | None => if isServer
                        then own_get (group_data env (server config)) k
                        else None
              end).
  { intros k Hne. rewrite own_get_set_own.
    destruct (String.eqb_spec k "client") as [->|_]; [congruence|].
    rewrite !own_get_spread, (own_get_rev_NoDup _ k Hcnd).
    destruct (own_get (group_data env (client config)) k); [reflexivity|].
    destruct isServer; simpl.
    - rewrite (own_get_rev_NoDup _ k Hsnd).
      now destruct (own_get (group_data env (server config)) k).
    - reflexivity. }
  split; [|split].
  - intros k sch Hin Hne.
    destruct (valid_data_lookup env _ k sch Hcord Hcsat Hin) as (v & Hv & Hget).
    exists v. split; [exact Hv|]. rewrite (Hinner k Hne). now rewrite Hget.
  - intros -> k sch Hin Hne.
    destruct (valid_data_lookup env _ k sch Hsord Hssat Hin) as (v & Hv & Hget).
    assert (Hown : own_get
                     (set_own
                        (spread (spread [] (group_data env (server config)))
                                (group_data env (client config)))
                        "client" (VRef (length (store w) + 1))) k = Some v).
    { rewrite (Hinner k Hne).
      assert (Hout : own_get (group_data env (client config)) k = None).
      { apply own_get_None. intros Hk.
        apply data_keys_declared in Hk.
        destruct Hok as [Hps Hpc]. rewrite Forall_forall in Hps, Hpc.
        assert (Hks : In k (server_keys config)).
        { unfold server_keys, keys_of. change k with (fst (k, sch)).
          now apply in_map. }
        specialize (Hps k (proj2 (list_elem_of_In _ _) Hks)).
        specialize (Hpc k (proj2 (list_elem_of_In _ _) Hk)).
        cbn in Hps, Hpc. congruence. }
      now rewrite Hout. }
    exists v. split; [exact Hv|]. split; [exact Hown|].
    rewrite guarded_get_pass_through by (left; now rewrite Hg).
    unfold obj_get. rewrite Htarget, Hsshape, Hcshape.
    change (flat_map (field_data (runtimeEnv config)) (entries (client config)))
      with (group_data env (client config)).
    change (flat_map (field_data (runtimeEnv config)) (entries (server config)))
      with (group_data env (server config)).
    now rewrite Hown.
  - intros k Hk. apply keys_set_own in Hk as [Hk|Hk]; [|tauto].
    apply keys_spread in Hk as [Hk|Hk].
    + apply keys_spread in Hk as [[]|Hk].
      destruct isServer; [|destruct Hk].
      left. now apply data_keys_declared in Hk.
    + right; left. now apply data_keys_declared in Hk.
Qed.

Lemma valid_environment_builds_witness :
  prefixes_ok sample_config
  /\ ordinary_keys (server sample_config)
  /\ ordinary_keys (client sample_config)
  /\ satisfies (runtimeEnv sample_config) (server sample_config)
  /\ satisfies (runtimeEnv sample_config) (client sample_config)
  /\ exists g w',
       createEnv true sample_config empty_world = (Return g, w')
       /\ guarded_get g (PString "DATABASE_URL") (store w')
          = Return (VString "postgres://db").
Proof.
  assert (Hok : prefixes_ok sample_config).
  { split; repeat constructor. }
  assert (Hs : ordinary_keys (server sample_config)).
  { split; [apply NoDup_singleton | simpl; intuition discriminate]. }
  assert (Hc : ordinary_keys (client sample_config)).
  { split; [apply NoDup_singleton | simpl; intuition discriminate]. }
  assert (Hss : satisfies (runtimeEnv sample_config) (server sample_config)).
  { repeat constructor. simpl. eauto. }
  assert (Hcs : satisfies (runtimeEnv sample_config) (client sample_config)).
  { repeat constructor. simpl. eauto. }
  split; [exact Hok|]. split; [exact Hs|]. split; [exact Hc|].
  split; [exact Hss|]. split; [exact Hcs|].
  destruct (valid_environment_builds true sample_config empty_world
              Hok Hs Hc Hss Hcs) as (g & w' & Hrun & _ & Hserver & _).
  exists g, w'. split; [exact Hrun|].
  destruct (Hserver eq_refl "DATABASE_URL" z_string
                    (or_introl eq_refl) ltac:(discriminate))
    as (v & Hv & _ & Hread).
  injection Hv as <-. exact Hread.
Defined.

(** ** Repeated constructions *)

(** The result of [createEnv], up to the world it leaves: an error does not
    depend on the world, a proxy depends on it by the location of its
    target only. *)
Lemma createEnv_outcome isServer config w :
  fst (createEnv isServer config w)
  = match bad_server_key config with
    | Some k =>
        Throw (EnvConfigError (server_key_message k (prefix_of config)))
    | None =>
    match bad_client_key config with
    | Some k =>
        Throw (EnvConfigError (client_key_message k (prefix_of config)))
    | None =>
    match (if isServer
           then flat_map (field_issues (runtimeEnv config))
                         (makeObjectSchema (server config))
           else []) with
    | i :: more => Throw (EnvValidationError (server_env_message (i :: more)))
    | [] =>
    match flat_map (field_issues (runtimeEnv config))
                   (makeObjectSchema (client config)) with
    | i :: more =>
        Throw (EnvValidationError
                 (client_env_message (i :: more) (prefix_of config)))
    | [] =>
        Return (mkGuarded (length (store w) + (if isServer then 2 else 3))
                          isServer (server config))
    end end end end.
Proof.
  destruct (bad_server_key config) as [k|] eqn:Hs.
  { now rewrite (createEnv_bad_server_key _ _ _ k Hs). }
  destruct (bad_client_key config) as [k|] eqn:Hc.
  { now rewrite (createEnv_bad_client_key _ _ _ k Hs Hc). }
  destruct isServer.
  - destruct (flat_map (field_issues (runtimeEnv config))
                       (makeObjectSchema (server config)))
      as [|i more] eqn:Hsi.
    2:{ destruct (createEnv_server_invalid config w i more Hs Hc Hsi)
          as [w0 ->]. reflexivity. }
    destruct (flat_map (field_issues (runtimeEnv config))
                       (makeObjectSchema (client config)))
      as [|i more] eqn:Hci.
    2:{ destruct (createEnv_client_invalid config w i more Hs Hc Hsi Hci)
          as [w0 ->]. reflexivity. }
    destruct (createEnv_server_built config w Hs Hc Hsi Hci) as [tr ->].
    reflexivity.
  - rewrite (createEnv_browser config w Hs Hc). cbv zeta.
    now destruct (flat_map (field_issues (runtimeEnv config))
                           (makeObjectSchema (client config))).
Qed.

(** What the target of a proxy shows for a key, given its own properties:
    two targets that differ by the location of their [client] object show
    the same, when the two client objects have the same properties. *)
Lemma same_view_of_targets (h : heap) (t1 t2 cd1 cd2 : loc)
      (inner : list (string * value)) (prop : propkey) :
  heap_props h t1 = set_own inner "client" (VRef cd1) ->
  heap_props h t2 = set_own inner "client" (VRef cd2) ->
  heap_props h cd1 = heap_props h cd2 ->
  view_of h (obj_get h t1 prop) = view_of h (obj_get h t2 prop).
Proof.
  intros H1 H2 Hcd. destruct prop as [k|d]; [|reflexivity].
  unfold obj_get. rewrite H1, H2, !own_get_set_own.
  destruct (String.eqb k "client").
  - simpl. now rewrite Hcd.
  - reflexivity.
Qed.

(** C8. Two calls of [createEnv] with the same configuration in the same
    execution context, the second in the world the first has left: either
    both throw the same error, or both return, and then the two proxies
    are distinct objects that show equal values for every property,
    objects being compared by their own properties. *)
Theorem createEnv_repeatable isServer config w :
  let run1 := createEnv isServer config w in
  let run2 := createEnv isServer config (snd run1) in
  match fst run1, fst run2 with
  | Return g1, Return g2 =>
      target g1 <> target g2
      /\ forall prop,
           observe (store (snd run2)) (guarded_get g1 prop (store (snd run2)))
           = observe (store (snd run2))
                     (guarded_get g2 prop (store (snd run2)))
  | Throw e1, Throw e2 => e1 = e2
  | _, _ => False
  end.
Proof.
  intros run1 run2.
  pose proof (createEnv_outcome isServer config w) as Hout1.
  pose proof (createEnv_outcome isServer config (snd run1)) as Hout2.
  fold run1 in Hout1. fold run2 in Hout2.
  destruct (bad_server_key config) as [k|];
    [rewrite Hout1, Hout2; reflexivity|].
  destruct (bad_client_key config) as [k|];
    [rewrite Hout1, Hout2; reflexivity|].
  destruct (if isServer
            then flat_map (field_issues (runtimeEnv config))
                          (makeObjectSchema (server config))
            else []) as [|i more];
    [|rewrite Hout1, Hout2; reflexivity].
  destruct (flat_map (field_issues (runtimeEnv config))
                     (makeObjectSchema (client config))) as [|i more];
    [|rewrite Hout1, Hout2; reflexivity].
  destruct run1 as [r1 w1] eqn:Hrun1. destruct run2 as [r2 w2] eqn:Hrun2.
  cbn [fst snd] in *. subst r1 r2.
  subst run1 run2. cbn [snd] in Hrun2.
  apply createEnv_Return_inv in Hrun1 as (_ & _ & _ & _ & Hb1).
  apply createEnv_Return_inv in Hrun2 as (_ & _ & _ & _ & Hb2).
  destruct Hb1 as (_ & _ & [Hlt1 Hlen1] & Hcd1 & _ & Ht1 & _).
  destruct Hb2 as (_ & [cells Hcells] & [Hlt2 Hlen2] & Hcd2 & _ & Ht2 & _).
  cbn [target] in *.
  split; [lia|].
  intros prop. unfold guarded_get. cbn [guard_isServer guard_server target].
  destruct (negb isServer && typeof_string prop && prop_in prop (server config));
    [reflexivity|].
  cbn [observe]. f_equal.
  eapply same_view_of_targets.
  - rewrite Hcells, heap_props_old by lia. exact Ht1.
  - exact Ht2.
  - rewrite Hcd2. rewrite Hcells, heap_props_old by lia. exact Hcd1.
Qed.

(** ** The second module *)

(** The second [createEnv] never returns a result: when the checks and the
    validation pass, the merged object is frozen before [client] is
    assigned through the proxy, so the assignment throws a [TypeError]. *)
Lemma Variant_createEnv_never_returns isServer config w g w' :
  Variant.createEnv isServer config w <> (Return g, w').
Proof.
  unfold Variant.createEnv, bind at 1.
  rewrite (for_each_guard
             (fun key => prefixOk key (prefix_of config))
             (fun key => EnvConfigError
                           (server_key_message key (prefix_of config)))).
  destruct (find _ _); [discriminate|].
  unfold bind at 1.
  rewrite (for_each_guard
             (fun key => negb (prefixOk key (prefix_of config)))
             (fun key => EnvConfigError
                           (client_key_message key (prefix_of config)))).
  destruct (find _ _); [discriminate|].
  cbv zeta. unfold bind at 1.
  destruct isServer.
  - rewrite safeParse_run.
    destruct (flat_map _ (makeObjectSchema (server config))).
    + unfold bind at 1. rewrite safeParse_run.
      destruct (flat_map _ (makeObjectSchema (client config)));
        [|discriminate].
      cbn [store trace]. rewrite andb_true_r.
      destruct (truthy (verbose config)).
      * run_effects. normalize_heap.
        match goal with
        | |- context [if ?c then _ else _] => destruct c
        end; run_effects; normalize_heap;
          unfold Variant.assign, guarded_set; cbn [store trace target];
          rewrite obj_set_frozen
            by (rewrite heap_frozen_new; reflexivity);
          discriminate.
      * run_effects. normalize_heap.
        unfold Variant.assign, guarded_set. cbn [store trace target].
        rewrite obj_set_frozen
          by (rewrite heap_frozen_new; reflexivity).
        discriminate.
    + unfold bind at 1. rewrite safeParse_run.
      destruct (flat_map _ (makeObjectSchema (client config))); discriminate.
  - unfold alloc at 1, bind at 1, ret at 1, bind at 1.
    rewrite safeParse_run.
    destruct (flat_map _ (makeObjectSchema (client config)));
      [|discriminate].
    cbn [store trace]. rewrite andb_false_r.
    run_effects. normalize_heap.
    unfold Variant.assign, guarded_set. cbn [store trace target].
    rewrite obj_set_frozen
      by (rewrite heap_frozen_new; reflexivity).
    discriminate.
Qed.

(** ** The nested client object *)

(** After any successful construction the client data is an unfrozen cell
    of the heap: an assignment to one of its properties succeeds. *)
Lemma createEnv_client_writable isServer config w g w' k v :
  createEnv isServer config w = (Return g, w') ->
  let cd := length (store w) + 1 in
  own_get (heap_props (store w') (target g)) "client" = Some (VRef cd)
  /\ exists h, obj_set (store w') cd k v = (true, h)
               /\ own_get (heap_props h cd) k = Some v.
Proof.
  intros Hrun cd.
  apply createEnv_Return_inv in Hrun as (_ & _ & _ & _ & Hb).
  destruct Hb as (_ & _ & [Hlt Hlen] & _ & Hfrozen & Htarget & _).
  subst cd. split.
  - rewrite Htarget, own_get_set_own. now rewrite String.eqb_refl.
  - unfold obj_set. unfold heap_frozen in Hfrozen.
    destruct (store w' !! (length (store w) + 1)) as [o|] eqn:Hcell.
    + rewrite Hfrozen. eexists. split; [reflexivity|].
      unfold heap_props.
      rewrite list_lookup_insert_eq by (apply lookup_lt_Some in Hcell; lia).
      cbn [props]. rewrite own_get_set_own. now rewrite String.eqb_refl.
    + apply lookup_ge_None in Hcell. lia.
Qed.

(** * Further properties of the module *)

(** ** The run of [createEnv] in a server context, world included *)

Lemma createEnv_server_run config w :
  bad_server_key config = None ->
  bad_client_key config = None ->
  createEnv true config w
  = let env := runtimeEnv config in
    let n := length (store w) in
    let sdata := flat_map (field_data env) (makeObjectSchema (server config)) in
    let cdata := flat_map (field_data env) (makeObjectSchema (client config)) in
    let tr := trace w ++ group_events env (server config)
                      ++ group_events env (client config) in
    let tprops := set_own (spread (spread [] sdata) cdata)
                          "client" (VRef (n + 1)) in
    match flat_map (field_issues env) (makeObjectSchema (server config)),
          flat_map (field_issues env) (makeObjectSchema (client config)) with
    | i :: more, [] =>
        (Throw (EnvValidationError (server_env_message (i :: more))),
         mkWorld (store w ++ [mkObject cdata false]) tr)
    | i :: more, _ :: _ =>
        (Throw (EnvValidationError (server_env_message (i :: more))),
         mkWorld (store w) tr)
    | [], j :: rest =>
        (Throw (EnvValidationError
                  (client_env_message (j :: rest) (prefix_of config))),
         mkWorld (store w ++ [mkObject sdata false]) tr)
    | [], [] =>
        let h := store w ++ [mkObject sdata false; mkObject cdata false;
                             mkObject tprops false] in
        let ms := missing_keys h (n + 2) (server config) in
        let mc := missing_keys h (n + 2) (client config) in
        (Return (mkGuarded (n + 2) true (server config)),
         mkWorld (store w ++ [mkObject sdata false; mkObject cdata false;
                              mkObject tprops true])
                 (tr ++ if truthy (verbose config)
                              && (nonempty ms || nonempty mc)
                        then [EvWarn ms mc] else []))
    end.
Proof.
  intros Hs Hc. pass_checks config Hs Hc.
  unfold bind at 1. rewrite safeParse_run.
  unfold group_events.
  destruct (flat_map (field_issues (runtimeEnv config))
                     (makeObjectSchema (server config))) as [|i more].
  - unfold bind at 1. rewrite safeParse_run. cbn [store trace].
    destruct (flat_map (field_issues (runtimeEnv config))
                       (makeObjectSchema (client config))) as [|j rest].
    + rewrite andb_true_r.
      destruct (truthy (verbose config)).
      * run_effects. normalize_heap. cbn [andb].
        match goal with
        | |- context [if ?c then _ else _] => destruct c
        end; run_effects; normalize_heap;
          rewrite <- ?app_assoc, ?app_nil_r; reflexivity.
      * run_effects. normalize_heap. cbn [andb].
        rewrite <- ?app_assoc, ?app_nil_r. reflexivity.
    + cbv zeta. unfold throw. rewrite <- app_assoc. reflexivity.
  - unfold bind at 1. rewrite safeParse_run. cbn [store trace].
    destruct (flat_map (field_issues (runtimeEnv config))
                       (makeObjectSchema (client config)));
      cbv zeta; unfold throw; rewrite <- app_assoc; reflexivity.
Qed.

(** ** Shared facts *)

Lemma set_own_keys_NoDup {A} (ps : list (string * A)) (k : string) (v : A) :
  NoDup (keys_of ps) -> NoDup (keys_of (set_own ps k v)).
Proof.
  induction ps as [|[k0 v0] ps IH]; simpl; intros Hnd.
  - apply NoDup_singleton.
  - destruct (String.eqb_spec k k0) as [->|Hne]; simpl; [exact Hnd|].
    apply NoDup_cons in Hnd as [Hnotin Hnd].
    apply NoDup_cons. split; [|now apply IH].
    intros Hin. apply list_elem_of_In, keys_set_own in Hin as [Hin|Heq].
    + apply Hnotin. now apply list_elem_of_In.
    + congruence.
Qed.

Lemma spread_keys_NoDup {A} (qs : list (string * A)) : forall ps,
  NoDup (keys_of ps) -> NoDup (keys_of (spread ps qs)).
Proof.
  unfold spread. induction qs as [|[k0 v0] qs IH]; intros ps Hnd; simpl.
  - exact Hnd.
  - apply IH. now apply set_own_keys_NoDup.
Qed.

Lemma makeObjectSchema_NoDup (m : SchemaMap) :
  NoDup (keys_of (makeObjectSchema m)).
Proof. apply spread_keys_NoDup. simpl. constructor. Qed.

(** What the target of a constructed proxy holds for a key other than
    [client]: the client value if the client data has the key, else, in a
    server context, the server value. *)
Lemma target_lookup isServer config w g w' k :
  createEnv isServer config w = (Return g, w') ->
  k <> "client" ->
  own_get (heap_props (store w') (target g)) k
  = match own_get (flat_map (field_data (runtimeEnv config))
                            (makeObjectSchema (client config))) k with
    | Some v => Some v
    | None =>
        if isServer
        then own_get (flat_map (field_data (runtimeEnv config))
                               (makeObjectSchema (server config))) k
        else None
    end.
Proof.
  intros Hrun Hne.
  apply createEnv_Return_inv in Hrun as (_ & _ & Hsi & Hci & Hb).
  destruct Hb as (_ & _ & _ & _ & _ & Htarget & _).
  rewrite Htarget, own_get_set_own.
  destruct (String.eqb_spec k "client") as [->|_]; [congruence|].
  rewrite !own_get_spread.
  assert (Hcnd : NoDup (keys_of (flat_map (field_data (runtimeEnv config))
                                          (makeObjectSchema (client config))))).
  { rewrite valid_data_keys by now apply no_issues_all_valid.
    apply makeObjectSchema_NoDup. }
  rewrite (own_get_rev_NoDup _ k Hcnd).
  destruct (own_get (flat_map (field_data (runtimeEnv config))
                              (makeObjectSchema (client config))) k);
    [reflexivity|].
  destruct isServer; simpl; [|reflexivity].
  assert (Hsnd : NoDup (keys_of (flat_map (field_data (runtimeEnv config))
                                          (makeObjectSchema (server config))))).
  { rewrite valid_data_keys by (apply no_issues_all_valid; now apply Hsi).
    apply makeObjectSchema_NoDup. }
  rewrite (own_get_rev_NoDup _ k Hsnd).
  now destruct (own_get _ k).
Qed.

(** The validated value of a declared key in the data of its group. *)
Lemma shape_data_lookup (env : RuntimeEnv) (m : SchemaMap)
      (k : string) (sch : Schema) :
  ordinary_keys m ->
  flat_map (field_issues env) (makeObjectSchema m) = [] ->
  In (k, sch) (entries m) ->
  exists v, sch (env_get env k) = Valid v
            /\ own_get (flat_map (field_data env) (makeObjectSchema m)) k
               = Some v.
Proof.
  intros Hord Hissues Hin.
  rewrite (makeObjectSchema_ordinary _ Hord) in *.
  apply no_issues_all_valid in Hissues.
  now apply (valid_data_lookup env m k sch Hord Hissues Hin).
Qed.

Lemma sample_ordinary_server : ordinary_keys (server sample_config).
Proof. split; [apply NoDup_singleton | simpl; intuition discriminate]. Defined.

Lemma sample_ordinary_client : ordinary_keys (client sample_config).
Proof. split; [apply NoDup_singleton | simpl; intuition discriminate]. Defined.

Lemma sample_server_run :
  createEnv true sample_config empty_world
  = (Return (mkGuarded 2 true (server sample_config)),
     snd (createEnv true sample_config empty_world)).
Proof. reflexivity. Defined.

Lemma sample_browser_run :
  createEnv false sample_config empty_world
  = (Return (mkGuarded 3 false (server sample_config)),
     snd (createEnv false sample_config empty_world)).
Proof. reflexivity. Defined.

(** ** Reads through the proxy *)

(** X1. After a construction in a server context no read through the
    proxy throws: every property, string or symbol, is handed to the
    target, in every later state of the heap. *)
Theorem server_reads_never_throw config w g w' :
  createEnv true config w = (Return g, w') ->
  forall prop h, guarded_get g prop h = Return (obj_get h (target g) prop).
Proof.
  intros Hrun prop h.
  apply createEnv_Return_inv in Hrun as (_ & _ & _ & _ & Hb).
  destruct Hb as (Hg & _). apply guarded_get_pass_through.
  left. now rewrite Hg.
Qed.

Lemma server_reads_never_throw_witness :
  guarded_get (mkGuarded 2 true (server sample_config))
              (PString "DATABASE_URL")
              (store (snd (createEnv true sample_config empty_world)))
  = Return (obj_get (store (snd (createEnv true sample_config empty_world)))
                    2 (PString "DATABASE_URL")).
Proof.
  exact (server_reads_never_throw sample_config empty_world _ _
           sample_server_run (PString "DATABASE_URL") _).
Defined.

(** X2. After a construction in a browser context a read through the
    proxy throws exactly for the string keys that are own keys of the
    server group or, when the group is an object literal, names of
    [Object.prototype]; the error is then the Configuration Error naming the
    key, and every other read is handed to the target. *)
Theorem browser_read_throws_iff config w g w' prop h :
  createEnv false config w = (Return g, w') ->
  let blocked :=
    exists k, prop = PString k
              /\ (In k (server_keys config)
                  \/ (proto (server config) = ObjectPrototype
                      /\ In k ObjectPrototype_names)) in
  (blocked ->
   guarded_get g prop h
   = Throw (EnvConfigError (guard_message (String_of prop))))
  /\ (~ blocked ->
      guarded_get g prop h = Return (obj_get h (target g) prop)).
Proof.
  intros Hrun blocked.
  apply createEnv_Return_inv in Hrun as (_ & _ & _ & _ & Hb).
  destruct Hb as (Hg & _).
  unfold guarded_get. rewrite Hg. cbn [guard_isServer guard_server negb andb].
  split.
  - intros (k & -> & Hk). cbn [typeof_string prop_in andb].
    unfold has_property.
    destruct Hk as [Hk|[Hp Hk]].
    + apply mem_string_In in Hk. unfold server_keys in Hk. now rewrite Hk.
    + apply mem_string_In in Hk. rewrite Hp, Hk. now rewrite orb_true_r.
  - intros Hfree. destruct prop as [k|d]; [|reflexivity].
    cbn [typeof_string prop_in andb]. unfold has_property.
    destruct (mem_string k (keys_of (entries (server config)))) eqn:Hown.
    { exfalso. apply Hfree. exists k. split; [reflexivity|].
      left. now apply mem_string_In. }
    destruct (proto (server config)) eqn:Hp; [|reflexivity].
    destruct (mem_string k ObjectPrototype_names) eqn:Hinh; [|reflexivity].
    exfalso. apply Hfree. exists k. split; [reflexivity|].
    right. split; [reflexivity | now apply mem_string_In].
Qed.

Lemma browser_read_throws_iff_witness :
  guarded_get (mkGuarded 3 false (server sample_config))
              (PString "NEXT_PUBLIC_API_URL")
              (store (snd (createEnv false sample_config empty_world)))
  = Return (VString "https://api").
Proof.
  refine (proj2 (browser_read_throws_iff sample_config empty_world _ _
                   (PString "NEXT_PUBLIC_API_URL") _ sample_browser_run) _).
  intros (k & [= <-] & [Hk|[_ Hk]]); simpl in Hk; intuition discriminate.
Defined.

Lemma createEnv_target_immutable_witness :
  guarded_set (mkGuarded 2 true (server sample_config)) "DATABASE_URL"
              (VString "evil")
              (store (snd (createEnv true sample_config empty_world)))
  = (false, store (snd (createEnv true sample_config empty_world)))
  /\ snd (guarded_delete (mkGuarded 2 true (server sample_config))
                         "DATABASE_URL"
                         (store (snd (createEnv true sample_config empty_world))))
     = store (snd (createEnv true sample_config empty_world)).
Proof.
  exact (createEnv_target_immutable true sample_config empty_world _ _
           "DATABASE_URL" (VString "evil") sample_server_run).
Defined.

(** X4. The top level of the result holds copies: an assignment to a
    property of [env.client] succeeds and shows in the client object, and
    the own properties of the target, the validated values read at the top
    level, stay as they were. *)
Theorem client_assignment_leaves_top_level isServer config w g w' k v :
  createEnv isServer config w = (Return g, w') ->
  exists cd h,
    own_get (heap_props (store w') (target g)) "client" = Some (VRef cd)
    /\ obj_set (store w') cd k v = (true, h)
    /\ own_get (heap_props h cd) k = Some v
    /\ heap_props h (target g) = heap_props (store w') (target g)
    /\ heap_frozen h (target g) = true.
Proof.
  intros Hrun.
  apply createEnv_Return_inv in Hrun as (_ & _ & _ & _ & Hb).
  destruct Hb as (_ & _ & [Hlt Hlen] & _ & Hcdf & Htarget & Hfrozen).
  exists (length (store w) + 1).
  unfold obj_set. unfold heap_frozen in Hcdf.
  destruct (store w' !! (length (store w) + 1)) as [o|] eqn:Hcell.
  2:{ apply lookup_ge_None in Hcell. lia. }
  rewrite Hcdf. eexists. split; [|split; [reflexivity|split; [|split]]].
  - rewrite Htarget, own_get_set_own. now rewrite String.eqb_refl.
  - unfold heap_props.
    rewrite list_lookup_insert_eq by (apply lookup_lt_Some in Hcell; lia).
    cbn [props]. rewrite own_get_set_own. now rewrite String.eqb_refl.
  - unfold heap_props. now rewrite list_lookup_insert_ne by lia.
  - unfold heap_frozen in *. now rewrite list_lookup_insert_ne by lia.
Qed.

Lemma client_assignment_leaves_top_level_witness :
  exists cd h,
    own_get (heap_props (store (snd (createEnv true sample_config empty_world)))
                        2) "client" = Some (VRef cd)
    /\ obj_set (store (snd (createEnv true sample_config empty_world)))
               cd "NEXT_PUBLIC_API_URL" (VString "evil") = (true, h)
    /\ own_get (heap_props h cd) "NEXT_PUBLIC_API_URL" = Some (VString "evil")
    /\ heap_props h 2
       = heap_props (store (snd (createEnv true sample_config empty_world))) 2
    /\ heap_frozen h 2 = true.
Proof.
  exact (client_assignment_leaves_top_level true sample_config empty_world
           _ _ "NEXT_PUBLIC_API_URL" (VString "evil") sample_server_run).
Defined.

(** X5. Reading [env.client] returns the client object, in a server context
    always and in a browser context unless [client] is itself a key of the
    server group; reading a declared client key from that object returns
    the value its schema validated. *)
Theorem client_field_read isServer config w g w' :
  createEnv isServer config w = (Return g, w') ->
  isServer = true \/ ~ In "client" (server_keys config) ->
  ordinary_keys (client config) ->
  exists cd,
    guarded_get g (PString "client") (store w') = Return (VRef cd)
    /\ forall k sch,
         In (k, sch) (entries (client config)) ->
         exists v, sch (env_get (runtimeEnv config) k) = Valid v
                   /\ obj_get (store w') cd (PString k) = v.
Proof.
  intros Hrun Hctx Hord.
  pose proof Hrun as Hinv.
  apply createEnv_Return_inv in Hinv as (_ & _ & _ & Hci & Hb).
  destruct Hb as (Hg & _ & _ & Hcd & _ & Htarget & _).
  exists (length (store w) + 1). split.
  - rewrite guarded_get_pass_through.
    + unfold obj_get. rewrite Htarget, own_get_set_own.
      now rewrite String.eqb_refl.
    + rewrite Hg. cbn [guard_isServer guard_server].
      destruct Hctx as [->|Hout]; [now left|]. right.
      cbn [prop_in]. unfold has_property.
      destruct (mem_string "client" (keys_of (entries (server config))))
        eqn:Hown.
      { exfalso. apply Hout. now apply mem_string_In. }
      now destruct (proto (server config)).
  - intros k sch Hin.
    destruct (shape_data_lookup _ _ k sch Hord Hci Hin) as (v & Hv & Hget).
    exists v. split; [exact Hv|].
    unfold obj_get. rewrite Hcd. now rewrite Hget.
Qed.

Lemma client_field_read_witness :
  exists cd,
    guarded_get (mkGuarded 3 false (server sample_config)) (PString "client")
                (store (snd (createEnv false sample_config empty_world)))
    = Return (VRef cd)
    /\ forall k sch,
         In (k, sch) (entries (client sample_config)) ->
         exists v, sch (env_get (runtimeEnv sample_config) k) = Valid v
                   /\ obj_get (store (snd (createEnv false sample_config
                                                     empty_world)))
                              cd (PString k) = v.
Proof.
  refine (client_field_read false sample_config empty_world _ _
            sample_browser_run _ sample_ordinary_client).
  right. simpl. intuition discriminate.
Defined.

(** A string key that is neither an own key of the server group nor, for
    an object literal, a name of [Object.prototype] passes the guard. *)
Lemma free_read isServer config w g w' k h :
  createEnv isServer config w = (Return g, w') ->
  ~ (In k (server_keys config)
     \/ (proto (server config) = ObjectPrototype
         /\ In k ObjectPrototype_names)) ->
  guarded_get g (PString k) h = Return (obj_get h (target g) (PString k)).
Proof.
  intros Hrun Hfree.
  apply createEnv_Return_inv in Hrun as (_ & _ & _ & _ & Hb).
  destruct Hb as (Hg & _).
  apply guarded_get_pass_through. right.
  rewrite Hg. cbn [guard_server prop_in]. unfold has_property.
  destruct (mem_string k (keys_of (entries (server config)))) eqn:Hown.
  { exfalso. apply Hfree. left. now apply mem_string_In. }
  destruct (proto (server config)) eqn:Hp; [|reflexivity].
  destruct (mem_string k ObjectPrototype_names) eqn:Hinh; [|reflexivity].
  exfalso. apply Hfree. right. split; [reflexivity | now apply mem_string_In].
Qed.

(** X6. In a browser context the read of a declared client key at the top
    level of the result returns its validated value, provided the key is
    not [client] and is not caught by the guard as a name of
    [Object.prototype]. *)
Theorem browser_client_key_read config w g w' k sch :
  createEnv false config w = (Return g, w') ->
  ordinary_keys (client config) ->
  In (k, sch) (entries (client config)) ->
  k <> "client" ->
  proto (server config) = NullPrototype \/ ~ In k ObjectPrototype_names ->
  exists v, sch (env_get (runtimeEnv config) k) = Valid v
            /\ guarded_get g (PString k) (store w') = Return v.
Proof.
  intros Hrun Hord Hin Hne Hfree.
  pose proof (target_lookup _ _ _ _ _ k Hrun Hne) as Hlook.
  pose proof Hrun as Hinv.
  apply createEnv_Return_inv in Hinv as (Hs & Hc & _ & Hci & _).
  destruct (shape_data_lookup _ _ k sch Hord Hci Hin) as (v & Hv & Hget).
  exists v. split; [exact Hv|].
  rewrite Hget in Hlook.
  rewrite (free_read false config w g w' k _ Hrun).
  - unfold obj_get. now rewrite Hlook.
  - intros [Hk|[Hp Hk]].
    + apply find_None_Forall in Hs, Hc. rewrite Forall_forall in Hs, Hc.
      assert (Hkc : In k (client_keys config)).
      { unfold client_keys, keys_of. change k with (fst (k, sch)).
        now apply in_map. }
      specialize (Hs k (proj2 (list_elem_of_In _ _) Hk)).
      specialize (Hc k (proj2 (list_elem_of_In _ _) Hkc)).
      cbn in Hs, Hc. rewrite Hs in Hc. discriminate.
    + destruct Hfree as [Hnull|Hout]; [congruence | tauto].
Qed.

Lemma browser_client_key_read_witness :
  exists v,
    z_string (env_get (runtimeEnv sample_config) "NEXT_PUBLIC_API_URL")
    = Valid v
    /\ guarded_get (mkGuarded 3 false (server sample_config))
                   (PString "NEXT_PUBLIC_API_URL")
                   (store (snd (createEnv false sample_config empty_world)))
       = Return v.
Proof.
  refine (browser_client_key_read sample_config empty_world _ _
            "NEXT_PUBLIC_API_URL" z_string sample_browser_run
            sample_ordinary_client _ _ _).
  - simpl. auto.
  - discriminate.
  - right. simpl. intuition discriminate.
Defined.

(** X7. A property that is declared in neither group, is not [client] and
    is not a name of [Object.prototype] reads as [undefined] through the
    proxy, in both contexts and whatever the runtime environment binds to
    it. *)
Theorem undeclared_key_reads_undefined isServer config w g w' k :
  createEnv isServer config w = (Return g, w') ->
  ~ In k (server_keys config) ->
  ~ In k (client_keys config) ->
  k <> "client" ->
  ~ In k ObjectPrototype_names ->
  guarded_get g (PString k) (store w') = Return VUndefined.
Proof.
  intros Hrun Hs Hc Hne Hinh.
  rewrite (free_read isServer config w g w' k _ Hrun) by tauto.
  unfold obj_get. rewrite (target_lookup _ _ _ _ _ k Hrun Hne).
  assert (Hcnone : own_get (flat_map (field_data (runtimeEnv config))
                                     (makeObjectSchema (client config))) k
                   = None).
  { apply own_get_None. intros Hin. apply Hc.
    now apply data_keys_declared, makeObjectSchema_keys in Hin. }
  assert (Hsnone : own_get (flat_map (field_data (runtimeEnv config))
                                     (makeObjectSchema (server config))) k
                   = None).
  { apply own_get_None. intros Hin. apply Hs.
    now apply data_keys_declared, makeObjectSchema_keys in Hin. }
  rewrite Hcnone.
  assert (Hout : mem_string k ObjectPrototype_names = false).
  { destruct (mem_string k ObjectPrototype_names) eqn:Hm; [|reflexivity].
    exfalso. apply Hinh. now apply mem_string_In. }
  destruct isServer; [rewrite Hsnone|]; now rewrite Hout.
Qed.

Lemma undeclared_key_reads_undefined_witness :
  own_get (runtimeEnv sample_config) "HOME" = Some (Some "/root")
  /\ guarded_get (mkGuarded 2 true (server sample_config)) (PString "HOME")
                 (store (snd (createEnv true sample_config empty_world)))
     = Return VUndefined.
Proof.
  split; [reflexivity|].
  refine (undeclared_key_reads_undefined true sample_config empty_world _ _
            "HOME" sample_server_run _ _ _ _);
    simpl; intuition discriminate.
Defined.

(** ** The validators run and the diagnostics *)

Lemma parse_events_no_warning (env : RuntimeEnv) (shape : list (string * Schema)) :
  Forall (fun e => is_warning e = false) (map (field_event env) shape).
Proof.
  apply Forall_forall. intros e He.
  apply list_elem_of_In, in_map_iff in He as (kv & <- & _). reflexivity.
Qed.

(** X8. In a server context with correctly prefixed groups the validators
    of both groups are run, those of the server group first, before any
    Validation Error is thrown: whatever the outcome, the trace grows by
    the server fields, then the client fields, then at most warnings. *)
Theorem server_parses_both_groups config w :
  prefixes_ok config ->
  exists rest,
    trace (snd (createEnv true config w))
    = trace w ++ group_events (runtimeEnv config) (server config)
              ++ group_events (runtimeEnv config) (client config) ++ rest
    /\ Forall (fun e => is_warning e = true) rest.
Proof.
  intros Hok. apply prefixes_ok_checks in Hok as [Hs Hc].
  rewrite (createEnv_server_run config w Hs Hc). cbv zeta.
  destruct (flat_map _ (makeObjectSchema (server config)));
    destruct (flat_map _ (makeObjectSchema (client config))); cbn [snd trace].
  1:{ eexists. rewrite <- !app_assoc. split; [reflexivity|].
      destruct (truthy (verbose config) && _); repeat constructor. }
  all: exists []; rewrite <- ?app_assoc, ?app_nil_r; split;
    [reflexivity | constructor].
Qed.

Lemma server_parses_both_groups_witness :
  prefixes_ok config_on_empty_env
  /\ exists rest,
       trace (snd (createEnv true config_on_empty_env empty_world))
       = trace empty_world
         ++ group_events (runtimeEnv config_on_empty_env)
                         (server config_on_empty_env)
         ++ group_events (runtimeEnv config_on_empty_env)
                         (client config_on_empty_env) ++ rest
       /\ Forall (fun e => is_warning e = true) rest.
Proof.
  assert (Hok : prefixes_ok config_on_empty_env)
    by (split; repeat constructor).
  split; [exact Hok|].
  exact (server_parses_both_groups config_on_empty_env empty_world Hok).
Defined.

(** X9. The [verbose] flag is a diagnostic only: whatever its value, the
    call returns the same proxy or throws the same error, and leaves the
    same heap. *)
Theorem verbose_does_not_change_result isServer config w v :
  fst (createEnv isServer (with_verbose v config) w)
  = fst (createEnv isServer config w)
  /\ store (snd (createEnv isServer (with_verbose v config) w))
     = store (snd (createEnv isServer config w)).
Proof.
  destruct (bad_server_key config) as [k|] eqn:Hs.
  { rewrite (createEnv_bad_server_key _ (with_verbose v config) _ k Hs).
    now rewrite (createEnv_bad_server_key _ config _ k Hs). }
  destruct (bad_client_key config) as [k|] eqn:Hc.
  { rewrite (createEnv_bad_client_key _ (with_verbose v config) _ k Hs Hc).
    now rewrite (createEnv_bad_client_key _ config _ k Hs Hc). }
  destruct isServer.
  - rewrite (createEnv_server_run (with_verbose v config) w Hs Hc).
    rewrite (createEnv_server_run config w Hs Hc).
    cbv zeta. cbn [server client runtimeEnv with_verbose].
    destruct (flat_map _ (makeObjectSchema (server config)));
      destruct (flat_map _ (makeObjectSchema (client config)));
      split; reflexivity.
  - rewrite (createEnv_browser (with_verbose v config) w Hs Hc).
    rewrite (createEnv_browser config w Hs Hc).
    cbv zeta. cbn [server client runtimeEnv with_verbose].
    destruct (flat_map _ (makeObjectSchema (client config)));
      split; reflexivity.
Qed.

(** X10. A warning is only ever printed in a server context with [verbose]
    set: in a browser context, or without the flag, the trace grows by
    runs of validators alone. *)
Theorem no_warning_unless_verbose_on_server isServer config w :
  isServer = false \/ truthy (verbose config) = false ->
  exists evs,
    trace (snd (createEnv isServer config w)) = trace w ++ evs
    /\ Forall (fun e => is_warning e = false) evs.
Proof.
  intros Hquiet.
  destruct (bad_server_key config) as [k|] eqn:Hs.
  { rewrite (createEnv_bad_server_key _ config _ k Hs).
    exists []. split; [now rewrite app_nil_r | constructor]. }
  destruct (bad_client_key config) as [k|] eqn:Hc.
  { rewrite (createEnv_bad_client_key _ config _ k Hs Hc).
    exists []. split; [now rewrite app_nil_r | constructor]. }
  destruct isServer.
  - destruct Hquiet as [Hctx|Hv]; [discriminate|].
    rewrite (createEnv_server_run config w Hs Hc). cbv zeta. rewrite Hv.
    cbn [andb]. unfold group_events.
    exists (map (field_event (runtimeEnv config))
                (makeObjectSchema (server config))
            ++ map (field_event (runtimeEnv config))
                   (makeObjectSchema (client config))).
    split.
    + destruct (flat_map _ (makeObjectSchema (server config)));
        destruct (flat_map _ (makeObjectSchema (client config)));
        cbn [snd trace]; rewrite <- ?app_assoc, ?app_nil_r; reflexivity.
    + apply Forall_app. split; apply parse_events_no_warning.
  - rewrite (createEnv_browser config w Hs Hc). cbv zeta.
    exists (map (field_event (runtimeEnv config))
                (makeObjectSchema (client config))).
    split; [|apply parse_events_no_warning].
    now destruct (flat_map _ (makeObjectSchema (client config))).
Qed.

Lemma no_warning_unless_verbose_on_server_witness :
  exists evs,
    trace (snd (createEnv false config_optional_unset empty_world))
    = trace empty_world ++ evs
    /\ Forall (fun e => is_warning e = false) evs.
Proof.
  exact (no_warning_unless_verbose_on_server false config_optional_unset
           empty_world (or_introl eq_refl)).
Defined.

(** ** Isolation of the calls *)

(** X12. A call of [createEnv] only adds objects to the heap: whatever its
    outcome, every object that existed before the call is left as it
    was. *)
Theorem createEnv_keeps_existing_objects isServer config w l :
  l < length (store w) ->
  store (snd (createEnv isServer config w)) !! l = store w !! l.
Proof.
  intros Hl.
  destruct (bad_server_key config) as [k|] eqn:Hs.
  { now rewrite (createEnv_bad_server_key _ config _ k Hs). }
  destruct (bad_client_key config) as [k|] eqn:Hc.
  { now rewrite (createEnv_bad_client_key _ config _ k Hs Hc). }
  destruct isServer.
  - rewrite (createEnv_server_run config w Hs Hc). cbv zeta.
    destruct (flat_map _ (makeObjectSchema (server config)));
      destruct (flat_map _ (makeObjectSchema (client config)));
      cbn [snd store]; try reflexivity; now apply lookup_app_l.
  - rewrite (createEnv_browser config w Hs Hc). cbv zeta.
    destruct (flat_map _ (makeObjectSchema (client config)));
      cbn [snd store]; now apply lookup_app_l.
Qed.

Lemma createEnv_keeps_existing_objects_witness :
  store (snd (createEnv true sample_config
                        (snd (createEnv true sample_config empty_world)))) !! 2
  = store (snd (createEnv true sample_config empty_world)) !! 2.
Proof.
  refine (createEnv_keeps_existing_objects true sample_config
            (snd (createEnv true sample_config empty_world)) 2 _).
  simpl. lia.
Defined.

(** ** The content of the warning *)

(** What the target holds for the declared keys, from the run itself. *)
Lemma target_holds_client_key isServer config w g w' k sch :
  createEnv isServer config w = (Return g, w') ->
  ordinary_keys (client config) ->
  In (k, sch) (entries (client config)) ->
  k <> "client" ->
  exists v, sch (env_get (runtimeEnv config) k) = Valid v
            /\ own_get (heap_props (store w') (target g)) k = Some v.
Proof.
  intros Hrun Hord Hin Hne.
  rewrite (target_lookup _ _ _ _ _ k Hrun Hne).
  apply createEnv_Return_inv in Hrun as (_ & _ & _ & Hci & _).
  destruct (shape_data_lookup _ _ k sch Hord Hci Hin) as (v & Hv & Hget).
  exists v. now rewrite Hget.
Qed.

Lemma target_holds_server_key config w g w' k sch :
  createEnv true config w = (Return g, w') ->
  ordinary_keys (server config) ->
  In (k, sch) (entries (server config)) ->
  k <> "client" ->
  exists v, sch (env_get (runtimeEnv config) k) = Valid v
            /\ own_get (heap_props (store w') (target g)) k = Some v.
Proof.
  intros Hrun Hord Hin Hne.
  rewrite (target_lookup _ _ _ _ _ k Hrun Hne).
  apply createEnv_Return_inv in Hrun as (Hs & Hc & Hsi & _ & _).
  destruct (shape_data_lookup _ _ k sch Hord (Hsi eq_refl) Hin)
    as (v & Hv & Hget).
  exists v. split; [exact Hv|].
  assert (Hout : own_get (flat_map (field_data (runtimeEnv config))
                                   (makeObjectSchema (client config))) k
                 = None).
  { apply own_get_None. intros Hk.
    apply data_keys_declared, makeObjectSchema_keys in Hk.
    apply find_None_Forall in Hs, Hc. rewrite Forall_forall in Hs, Hc.
    assert (Hks : In k (server_keys config)).
    { unfold server_keys, keys_of. change k with (fst (k, sch)).
      now apply in_map. }
    specialize (Hs k (proj2 (list_elem_of_In _ _) Hks)).
    specialize (Hc k (proj2 (list_elem_of_In _ _) Hk)).
    cbn in Hs, Hc. rewrite Hs in Hc. discriminate. }
  now rewrite Hout.
Qed.

(** The filter of the diagnostics on a target that holds the validated
    values of a group and the [client] object. *)
Lemma missing_keys_undefined (h : heap) (t : loc) (env : RuntimeEnv)
      (m : SchemaMap) :
  ordinary_keys m ->
  (forall k sch, In (k, sch) (entries m) -> k <> "client" ->
     exists v, sch (env_get env k) = Valid v
               /\ own_get (heap_props h t) k = Some v) ->
  (exists cd, own_get (heap_props h t) "client" = Some (VRef cd)) ->
  missing_keys h t m = undefined_keys env m.
Proof.
  intros [Hnd _] Hholds [cd Hclient].
  unfold missing_keys, undefined_keys. apply filter_ext_in.
  intros k Hk. unfold obj_get.
  destruct (String.eqb_spec k "client") as [->|Hne].
  - rewrite Hclient. simpl. now rewrite andb_false_r.
  - apply in_map_iff in Hk as ([k0 sch] & Hfst & Hin). simpl in Hfst.
    subst k0.
    destruct (Hholds k sch Hin Hne) as (v & Hv & Hget).
    rewrite Hget. unfold validates_to_undefined.
    rewrite (own_get_NoDup _ k sch Hnd Hin), Hv. simpl.
    now rewrite andb_true_r.
Qed.

(** X11. With [verbose] set, in a server context, for correctly prefixed
    groups and an environment that satisfies both schemas, the warning
    lists, group by group, exactly the declared keys other than [client]
    whose schema accepted the value [undefined]; it is printed after all
    validators have run, and only when one of the two lists is not
    empty. *)
Theorem verbose_warning_lists_undefined_keys config w :
  truthy (verbose config) = true ->
  prefixes_ok config ->
  ordinary_keys (server config) ->
  ordinary_keys (client config) ->
  satisfies (runtimeEnv config) (server config) ->
  satisfies (runtimeEnv config) (client config) ->
  let env := runtimeEnv config in
  let ms := undefined_keys env (server config) in
  let mc := undefined_keys env (client config) in
  trace (snd (createEnv true config w))
  = trace w ++ group_events env (server config)
            ++ group_events env (client config)
            ++ (if nonempty ms || nonempty mc then [EvWarn ms mc] else []).
Proof.
  intros Hv Hok Hsord Hcord Hssat Hcsat env ms mc.
  pose proof Hok as Hchecks. apply prefixes_ok_checks in Hchecks as [Hs Hc].
  pose proof (createEnv_server_run config w Hs Hc) as Hrun.
  cbv zeta in Hrun. fold env in Hrun.
  assert (Hsi : flat_map (field_issues env) (makeObjectSchema (server config))
                = []).
  { rewrite (makeObjectSchema_ordinary _ Hsord).
    now apply no_issues_all_valid. }
  assert (Hci : flat_map (field_issues env) (makeObjectSchema (client config))
                = []).
  { rewrite (makeObjectSchema_ordinary _ Hcord).
    now apply no_issues_all_valid. }
  rewrite Hsi, Hci, Hv in Hrun. cbn [andb] in Hrun.
  set (h := store w ++ [_; _; mkObject _ false]) in Hrun.
  assert (Hprops : heap_props h (length (store w) + 2)
                   = heap_props (store (snd (createEnv true config w)))
                                (length (store w) + 2)).
  { rewrite Hrun. cbn [snd store]. subst h.
    now rewrite !heap_props_new. }
  assert (Hclient : exists cd,
             own_get (heap_props h (length (store w) + 2)) "client"
             = Some (VRef cd)).
  { exists (length (store w) + 1). subst h. rewrite heap_props_new.
    cbn. rewrite own_get_set_own. now rewrite String.eqb_refl. }
  assert (Hrun' : createEnv true config w
                  = (Return (mkGuarded (length (store w) + 2) true
                                       (server config)),
                     snd (createEnv true config w)))
    by (rewrite Hrun; reflexivity).
  assert (Hms : missing_keys h (length (store w) + 2) (server config) = ms).
  { apply missing_keys_undefined; [exact Hsord | | exact Hclient].
    intros k sch Hin Hne. rewrite Hprops.
    exact (target_holds_server_key config w _ _ k sch Hrun' Hsord Hin Hne). }
  assert (Hmc : missing_keys h (length (store w) + 2) (client config) = mc).
  { apply missing_keys_undefined; [exact Hcord | | exact Hclient].
    intros k sch Hin Hne. rewrite Hprops.
    exact (target_holds_client_key true config w _ _ k sch
             Hrun' Hcord Hin Hne). }
  rewrite Hrun. cbn [snd trace]. rewrite Hms, Hmc.
  now rewrite <- !app_assoc.
Qed.

Lemma verbose_warning_lists_undefined_keys_witness :
  trace (snd (createEnv true config_optional_unset empty_world))
  = [ EvParse "DATABASE_URL" (Some "postgres://db");
      EvParse "SENTRY_DSN" None;
      EvParse "NEXT_PUBLIC_API_URL" (Some "https://api");
      EvWarn ["SENTRY_DSN"] [] ].
Proof.
  assert (Hv : truthy (verbose config_optional_unset) = true) by reflexivity.
  assert (Hok : prefixes_ok config_optional_unset)
    by (split; repeat constructor).
  assert (Hs : ordinary_keys (server config_optional_unset)).
  { split; [|simpl; intuition discriminate].
    simpl. apply NoDup_cons. split; [|apply NoDup_singleton].
    intros Hin. apply list_elem_of_In in Hin. simpl in Hin.
    intuition discriminate. }
  assert (Hc : ordinary_keys (client config_optional_unset)).
  { split; [apply NoDup_singleton | simpl; intuition discriminate]. }
  assert (Hss : satisfies (runtimeEnv config_optional_unset)
                          (server config_optional_unset)).
  { repeat constructor; simpl; eauto. }
  assert (Hcs : satisfies (runtimeEnv config_optional_unset)
                          (client config_optional_unset)).
  { repeat constructor; simpl; eauto. }
  exact (verbose_warning_lists_undefined_keys config_optional_unset
           empty_world Hv Hok Hs Hc Hss Hcs).
Defined.

(** ** The functions of the module *)

(** X15. [prefixOk] is [startsWith]: it holds exactly when the key is the
    prefix followed by some text; in particular every key starts with the
    empty prefix and with itself. *)
Theorem prefixOk_iff key prefix :
  prefixOk key prefix = true <-> exists rest, key = prefix +:+ rest.
Proof.
  unfold prefixOk. revert key.
  induction prefix as [|a prefix IH]; intros key.
  - split; [|now destruct key]. intros _. now exists key.
  - destruct key as [|b key]; simpl.
    + split; [discriminate | intros [rest H]; discriminate].
    + destruct (ascii_dec a b) as [->|Hne].
      * rewrite IH. split; intros [rest H]; exists rest.
        -- now rewrite H.
        -- now injection H.
      * split; [discriminate|]. intros [rest H]. injection H as H1 H2.
        congruence.
Qed.

(** X16. [makeObjectSchema] builds an object: the keys of the shape are
    those of the map, each once, and the schema of a key is the one the map
    binds to it last; a map with distinct keys is copied entry for entry,
    in order. *)
Theorem makeObjectSchema_shape (m : SchemaMap) :
  NoDup (keys_of (makeObjectSchema m))
  /\ (forall k, In k (keys_of (makeObjectSchema m))
                <-> In k (keys_of (entries m)))
  /\ (forall k, own_get (makeObjectSchema m) k = own_get (rev (entries m)) k)
  /\ (NoDup (keys_of (entries m)) -> makeObjectSchema m = entries m).
Proof.
  split; [apply makeObjectSchema_NoDup|].
  split; [intros k; apply makeObjectSchema_keys|].
  split.
  - intros k. unfold makeObjectSchema. rewrite own_get_spread.
    now destruct (own_get (rev (entries m)) k).
  - intros Hnd. now apply spread_nil_NoDup.
Qed.

(** X17. When some server key starts with the Client Prefix, the
    Configuration Error names the first such key, in the order of
    [Object.keys], and quotes the prefix in force; the client group is not
    looked at. *)
Theorem first_offending_server_key_named isServer config w pre k post :
  server_keys config = pre ++ k :: post ->
  Forall (fun k' => prefixOk k' (prefix_of config) = false) pre ->
  prefixOk k (prefix_of config) = true ->
  createEnv isServer config w
  = (Throw (EnvConfigError
              ("Server key " +:+ quoted k
               +:+ " must NOT start with client prefix "
               +:+ quoted (prefix_of config) +:+ ".")), w).
Proof.
  intros Hkeys Hpre Hk. apply createEnv_bad_server_key.
  unfold bad_server_key. rewrite Hkeys. clear Hkeys.
  induction Hpre as [|k' pre Hk' Hrest IH]; simpl.
  - now rewrite Hk.
  - rewrite Hk'. exact IH.
Qed.

Lemma first_offending_server_key_named_witness :
  createEnv true config_public_server_key empty_world
  = (Throw (EnvConfigError
              ("Server key " +:+ quoted "NEXT_PUBLIC_FOO"
               +:+ " must NOT start with client prefix "
               +:+ quoted "NEXT_PUBLIC_" +:+ ".")), empty_world).
Proof.
  exact (first_offending_server_key_named true config_public_server_key
           empty_world [] "NEXT_PUBLIC_FOO" [] eq_refl
           (List.Forall_nil _) eq_refl).
Defined.

(** X18. When every server key respects the prefix rule and some client
    key does not start with the Client Prefix, the Configuration Error
    names the first such client key. *)
Theorem first_offending_client_key_named isServer config w pre k post :
  Forall (fun k' => prefixOk k' (prefix_of config) = false)
         (server_keys config) ->
  client_keys config = pre ++ k :: post ->
  Forall (fun k' => prefixOk k' (prefix_of config) = true) pre ->
  prefixOk k (prefix_of config) = false ->
  createEnv isServer config w
  = (Throw (EnvConfigError
              ("Client key " +:+ quoted k
               +:+ " must start with client prefix "
               +:+ quoted (prefix_of config) +:+ ".")), w).
Proof.
  intros Hserver Hkeys Hpre Hk. apply createEnv_bad_client_key.
  - unfold bad_server_key. now apply find_None_Forall.
  - unfold bad_client_key. rewrite Hkeys. clear Hkeys.
    induction Hpre as [|k' pre Hk' Hrest IH]; simpl.
    + now rewrite Hk.
    + rewrite Hk'. exact IH.
Qed.

Lemma first_offending_client_key_named_witness :
  createEnv false
    (mkConfig (literal [("DATABASE_URL", z_string)])
              (literal [("NEXT_PUBLIC_A", z_string); ("API_URL", z_string)])
              [] None None)
    empty_world
  = (Throw (EnvConfigError
              ("Client key " +:+ quoted "API_URL"
               +:+ " must start with client prefix "
               +:+ quoted "NEXT_PUBLIC_" +:+ ".")), empty_world).
Proof.
  refine (first_offending_client_key_named false
            (mkConfig (literal [("DATABASE_URL", z_string)])
                      (literal [("NEXT_PUBLIC_A", z_string);
                                ("API_URL", z_string)])
                      [] None None)
            empty_world ["NEXT_PUBLIC_A"] "API_URL" [] _ eq_refl _ eq_refl);
    repeat constructor.
Defined.

(** ** The second module, continued *)

Lemma Variant_bad_server_key isServer config w k :
  bad_server_key config = Some k ->
  Variant.createEnv isServer config w
  = (Throw (EnvConfigError (server_key_message k (prefix_of config))), w).
Proof.
  intros Hbad. unfold Variant.createEnv, bind at 1.
  rewrite (for_each_guard
             (fun key => prefixOk key (prefix_of config))
             (fun key => EnvConfigError
                           (server_key_message key (prefix_of config)))).
  unfold bad_server_key, server_keys in Hbad. now rewrite Hbad.
Qed.

Lemma Variant_bad_client_key isServer config w k :
  bad_server_key config = None ->
  bad_client_key config = Some k ->
  Variant.createEnv isServer config w
  = (Throw (EnvConfigError (client_key_message k (prefix_of config))), w).
Proof.
  intros Hs Hc. unfold Variant.createEnv, bind at 1.
  rewrite (for_each_guard
             (fun key => prefixOk key (prefix_of config))
             (fun key => EnvConfigError
                           (server_key_message key (prefix_of config)))).
  unfold bad_server_key, server_keys in Hs. rewrite Hs.
  unfold bind at 1.
  rewrite (for_each_guard
             (fun key => negb (prefixOk key (prefix_of config)))
             (fun key => EnvConfigError
                           (client_key_message key (prefix_of config)))).
  unfold bad_client_key, client_keys in Hc. now rewrite Hc.
Qed.

(** X14. The second [createEnv] runs the same prefix checks: on a
    configuration that breaks the prefix rule it throws the same
    Configuration Error as the first, and leaves the world as it was. *)
Theorem Variant_same_configuration_error isServer config w :
  ~ prefixes_ok config ->
  Variant.createEnv isServer config w = createEnv isServer config w
  /\ exists msg,
       createEnv isServer config w = (Throw (EnvConfigError msg), w).
Proof.
  intros Hbad.
  destruct (bad_server_key config) as [k|] eqn:Hs.
  { rewrite (Variant_bad_server_key isServer config w k Hs).
    rewrite (createEnv_bad_server_key isServer config w k Hs).
    split; [reflexivity | eauto]. }
  destruct (bad_client_key config) as [k|] eqn:Hc.
  { rewrite (Variant_bad_client_key isServer config w k Hs Hc).
    rewrite (createEnv_bad_client_key isServer config w k Hs Hc).
    split; [reflexivity | eauto]. }
  exfalso. apply Hbad. now apply prefixes_ok_checks.
Qed.

Lemma Variant_same_configuration_error_witness :
  Variant.createEnv true config_public_server_key empty_world
  = createEnv true config_public_server_key empty_world
  /\ exists msg,
       createEnv true config_public_server_key empty_world
       = (Throw (EnvConfigError msg), empty_world).
Proof.
  refine (Variant_same_configuration_error true config_public_server_key
            empty_world _).
  intros [Hs _]. apply Forall_cons in Hs as [Hs _]. discriminate.
Defined.

(** X13. When the prefix checks and the validation pass, the second
    [createEnv] throws a [TypeError]: it freezes the merged object and then
    assigns [client] through the proxy, which the frozen target refuses. *)
Theorem Variant_assignment_throws isServer config w :
  prefixes_ok config ->
  (isServer = true ->
   flat_map (field_issues (runtimeEnv config))
            (makeObjectSchema (server config)) = []) ->
  flat_map (field_issues (runtimeEnv config))
           (makeObjectSchema (client config)) = [] ->
  exists w', Variant.createEnv isServer config w = (Throw TypeError, w').
Proof.
  intros Hok Hsi Hci. apply prefixes_ok_checks in Hok as [Hs Hc].
  unfold Variant.createEnv, bind at 1.
  rewrite (for_each_guard
             (fun key => prefixOk key (prefix_of config))
             (fun key => EnvConfigError
                           (server_key_message key (prefix_of config)))).
  unfold bad_server_key, server_keys in Hs. rewrite Hs.
  unfold bind at 1.
  rewrite (for_each_guard
             (fun key => negb (prefixOk key (prefix_of config)))
             (fun key => EnvConfigError
                           (client_key_message key (prefix_of config)))).
  unfold bad_client_key, client_keys in Hc. rewrite Hc.
  cbv zeta. unfold bind at 1.
  destruct isServer.
  - rewrite safeParse_run, (Hsi eq_refl).
    unfold bind at 1. rewrite safeParse_run, Hci.
    cbn [store trace]. rewrite andb_true_r.
    destruct (truthy (verbose config)).
    + run_effects. normalize_heap.
      match goal with
      | |- context [if ?c then _ else _] => destruct c
      end; run_effects; normalize_heap;
        unfold Variant.assign, guarded_set; cbn [store trace target];
        rewrite obj_set_frozen by (rewrite heap_frozen_new; reflexivity);
        eexists; reflexivity.
    + run_effects. normalize_heap.
      unfold Variant.assign, guarded_set. cbn [store trace target].
      rewrite obj_set_frozen by (rewrite heap_frozen_new; reflexivity).
      eexists; reflexivity.
  - unfold alloc at 1, bind at 1, ret at 1, bind at 1.
    rewrite safeParse_run, Hci.
    cbn [store trace]. rewrite andb_false_r.
    run_effects. normalize_heap.
    unfold Variant.assign, guarded_set. cbn [store trace target].
    rewrite obj_set_frozen by (rewrite heap_frozen_new; reflexivity).
    eexists; reflexivity.
Qed.

Lemma Variant_assignment_throws_witness :
  exists w',
    Variant.createEnv true sample_config empty_world = (Throw TypeError, w').
Proof.
  refine (Variant_assignment_throws true sample_config empty_world _ _ _).
  - split; repeat constructor.
  - reflexivity.
  - reflexivity.
Defined.
